(** * react-perf-dashboard: the telemetry hooks, embedded and verified

    The four collectors of the dashboard are React hooks:
    - [useFps]            (src/hooks/useFps.ts)            FrameRateSampler
    - [useMemory]         (src/hooks/useMemory.ts)         HeapSampler
    - [useWebVitals]      (the PerformanceObserver variant) VitalsObserver;
                          the variant of src/hooks/useWebVitals.ts hands the
                          measuring to the [web-vitals] package, which is not
                          part of the repository: of that variant the effect
                          and its callbacks are embedded, with the package
                          as the host
    - [useNetworkMonitor] (src/hooks/useNetworkMonitor.ts) CallInterceptor

    Each hook is an effect body that registers a callback with the host
    (a frame request, an interval timer, performance observers, the global
    [window.fetch]) and returns a cleanup closure.  The embedding keeps the
    closure variables of every effect in a record, takes the host's inputs
    (clock reads, delivered entries, settled calls) as explicit events and
    logs every call of the React state setter, which is the collector's
    update notification.

    JavaScript numbers are binary64 values.  Times, durations and byte
    counts are modelled by exact rationals ([Q]); the observers of
    [useWebVitals] only add, subtract and compare, so they are written over a
    small interface of number operations, instantiated at [Q] for the general
    theorems and at the kernel's binary64 floats to run the examples with the
    rounding the program really has. *)

From Stdlib Require Import String Ascii ZArith QArith Qround Qabs Qminmax List Bool
  Lia Lqa Floats.
From Stdlib Require DecimalString DecimalZ.
Import ListNotations.

Local Open Scope Q_scope.

#[local] Set Warnings "-inexact-float".

(** ** Completions: a JavaScript statement list either finishes or throws *)

Inductive error : Type :=
| TypeError (msg : string)
| NotSupportedError (entryType : string)
| HostError (id : nat).

Inductive completion (A : Type) : Type :=
| Normal (a : A)
| Throw (e : error).
Arguments Normal {A} a.
Arguments Throw {A} e.

Definition bind {A B : Type} (c : completion A) (k : A -> completion B)
  : completion B :=
  match c with
  | Normal a => k a
  | Throw e => Throw e
  end.

(** [try { c } catch { h }] where the handler ignores the exception value. *)
Definition try_catch {A : Type} (c : completion A) (h : completion A)
  : completion A :=
  match c with
  | Normal a => Normal a
  | Throw _ => h
  end.

Notation "x <- c ;; k" := (bind c (fun x => k))
  (at level 61, c at next level, right associativity).

(** ** Number helpers *)

(** [Math.round]: the nearest integer, ties towards plus infinity. *)
Definition Math_round (x : Q) : Z := Qfloor (x + (1 # 2)).

(** [x >= y] on numbers, as a boolean test. *)
Definition geb (x y : Q) : bool := Qle_bool y x.

(** [x > y] on numbers, as a boolean test. *)
Definition gtb (x y : Q) : bool := negb (Qle_bool x y).

(** ** useFps: the frame-rate sampler *)

Module Fps.

(** The closure variables of the effect ([frameCount], [lastTime],
    [animationFrameId]), the host's frame-request queue (at most the one
    request the loop re-issues), the React state and the log of [setFps]
    calls. *)
Record state : Type := mkState {
  frameCount : Z;
  lastTime : Q;
  animationFrameId : nat;
  scheduled : option nat;
  next_handle : nat;
  fps : Z;
  setFps_calls : list Z
}.

(** [setFps(v)] *)
Definition setFps (v : Z) (s : state) : state :=
  mkState (frameCount s) (lastTime s) (animationFrameId s) (scheduled s)
          (next_handle s) v (setFps_calls s ++ [v]).

(** [animationFrameId = requestAnimationFrame(loop)] *)
Definition requestAnimationFrame_loop (s : state) : state :=
  mkState (frameCount s) (lastTime s) (next_handle s) (Some (next_handle s))
          (S (next_handle s)) (fps s) (setFps_calls s).

(** The body of [loop], with [now] the value [performance.now()] returns. *)
Definition loop (now : Q) (s : state) : state :=
  let fc := (frameCount s + 1)%Z in
  let s1 :=
    if geb (now - lastTime s) 1000
    then
      let s' := setFps (Math_round (inject_Z (fc * 1000) / (now - lastTime s))) s in
      mkState 0 now (animationFrameId s') (scheduled s') (next_handle s')
              (fps s') (setFps_calls s')
    else
      mkState fc (lastTime s) (animationFrameId s) (scheduled s)
              (next_handle s) (fps s) (setFps_calls s)
  in requestAnimationFrame_loop s1.

(** The effect body: [t0] is the clock read that initialises [lastTime],
    [t1] the one of the synchronous first call [loop()]. *)
Definition mount (t0 t1 : Q) : state :=
  loop t1 (mkState 0 t0 0 None 0 0 []).

(** The cleanup closure: [cancelAnimationFrame(animationFrameId)].  The host
    drops the request with that handle if it is still queued. *)
Definition cleanup (s : state) : state :=
  match scheduled s with
  | Some h =>
      if Nat.eqb h (animationFrameId s)
      then mkState (frameCount s) (lastTime s) (animationFrameId s) None
                   (next_handle s) (fps s) (setFps_calls s)
      else s
  | None => s
  end.

Inductive event : Type :=
| Frame (now : Q)     (* the host reaches a rendering opportunity *)
| Stop.               (* the stop handle is invoked *)

(** A rendering opportunity runs the queued request, if there is one. *)
Definition step (s : state) (e : event) : state :=
  match e with
  | Frame now =>
      match scheduled s with
      | Some _ =>
          loop now (mkState (frameCount s) (lastTime s) (animationFrameId s)
                            None (next_handle s) (fps s) (setFps_calls s))
      | None => s
      end
  | Stop => cleanup s
  end.

Definition run (es : list event) (s : state) : state := fold_left step es s.

(** A frame request is queued and it is the one [animationFrameId] names. *)
Definition queued (s : state) : Prop := scheduled s = Some (animationFrameId s).

(** The arguments of [setFps] along the invocations of [loop] at the times
    [ts], from a counter [n] and a window start [start]. *)
Fixpoint rates (n : Z) (start : Q) (ts : list Q) : list Z :=
  match ts with
  | [] => []
  | now :: ts' =>
      if geb (now - start) 1000
      then Math_round (inject_Z ((n + 1) * 1000) / (now - start))
           :: rates 0 now ts'
      else rates (n + 1) start ts'
  end.

(** The reading of the specification: the invocation times of a session
    split into measurement windows.  [Windows n start ts outs]: with [n]
    frames already counted since [start], the invocations at [ts] complete
    the windows whose rates are [outs]. *)
Inductive Windows : Z -> Q -> list Q -> list Z -> Prop :=
| W_open n start ts :
    Forall (fun t => t - start < 1000) ts ->
    Windows n start ts []
| W_closed n start pre t rest outs :
    Forall (fun t' => t' - start < 1000) pre ->
    1000 <= t - start ->
    Windows 0 t rest outs ->
    Windows n start (pre ++ t :: rest)
      (Math_round
         (inject_Z ((n + Z.of_nat (length pre) + 1) * 1000) / (t - start))
       :: outs).

End Fps.

(** ** useMemory: the heap sampler *)

Module Memory.

(** [performance.memory], absent on hosts without the capability. *)
Record MemoryInfo : Type := mkMemoryInfo {
  usedJSHeapSize : Q;
  jsHeapSizeLimit : Q
}.

(** The value of the hook: [{ used, limit }] in megabytes. *)
Record sample : Type := mkSample {
  used : Q;
  limit : Q
}.

(** The handle [setInterval] returned and whether the host still holds the
    timer, the React state ([null] is [None]) and the log of [setMemory]
    calls. *)
Record state : Type := mkState {
  interval : nat;
  timer_active : bool;
  memory : option sample;
  setMemory_calls : list (option sample)
}.

Definition setMemory (v : option sample) (s : state) : state :=
  mkState (interval s) (timer_active s) v (setMemory_calls s ++ [v]).

(** The interval callback; [pm] is what [performance.memory] evaluates to
    at this tick. *)
Definition callback (pm : option MemoryInfo) (s : state) : completion state :=
  match pm with
  | Some m =>
      Normal (setMemory
                (Some (mkSample (usedJSHeapSize m / 1024 / 1024)
                                (jsHeapSizeLimit m / 1024 / 1024))) s)
  | None => Normal s
  end.

(** The effect body: [setInterval(callback, 1000)], [h] the handle the host
    hands out. *)
Definition mount (h : nat) : state := mkState h true None [].

(** The cleanup closure: [clearInterval(interval)]. *)
Definition cleanup (s : state) : state :=
  mkState (interval s) false (memory s) (setMemory_calls s).

Inductive event : Type :=
| Tick (pm : option MemoryInfo)   (* the interval elapses *)
| Stop.

(** The host runs the callback of a live timer; an exception of a timer
    callback is reported by the host and the timer goes on. *)
Definition step (s : state) (e : event) : state :=
  match e with
  | Tick pm =>
      if timer_active s
      then match callback pm s with
           | Normal s' => s'
           | Throw _ => s
           end
      else s
  | Stop => cleanup s
  end.

Definition run (es : list event) (s : state) : state := fold_left step es s.

End Memory.

(** ** useWebVitals: the vitals observer (PerformanceObserver variant)

    The host is one that has [PerformanceObserver]; what it may lack is the
    support of an entry type, in which case [observe] throws. *)

(** The arithmetic the observer callbacks use: [0], [+], [-], [>] and the
    truthiness test of [||] and [&&]. *)
Class Number (num : Type) : Type := mkNumber {
  num_zero : num;
  num_add : num -> num -> num;
  num_sub : num -> num -> num;
  num_gt : num -> num -> bool;
  num_truthy : num -> bool
}.

(** Exact rationals: every number but [0] is truthy. *)
#[export] Instance Number_Q : Number Q :=
  mkNumber Q 0 Qplus Qminus gtb (fun x => negb (Qeq_bool x 0)).

(** binary64: [0], [-0] and [NaN] are falsy; comparisons with [NaN] are
    false. *)
#[export] Instance Number_float : Number float :=
  mkNumber float 0%float PrimFloat.add PrimFloat.sub
           (fun x y => PrimFloat.ltb y x)
           (fun x => PrimFloat.eqb x x && negb (PrimFloat.eqb x 0%float)).

Module Vitals.

Inductive metric : Type := LCP | CLS | FID | INP.

(** The entry type each observer subscribes to. *)
Definition entryType (m : metric) : string :=
  match m with
  | LCP => "largest-contentful-paint"
  | CLS => "layout-shift"
  | FID => "first-input"
  | INP => "event"
  end.

Record LCPEntry (num : Type) : Type := mkLCPEntry {
  renderTime : num;
  loadTime : num
}.
Arguments mkLCPEntry {num}.
Arguments renderTime {num}.
Arguments loadTime {num}.

Record LayoutShiftEntry (num : Type) : Type := mkLayoutShiftEntry {
  value : num;
  hadRecentInput : bool
}.
Arguments mkLayoutShiftEntry {num}.
Arguments value {num}.
Arguments hadRecentInput {num}.

Record FirstInputEntry (num : Type) : Type := mkFirstInputEntry {
  processingStart : num;
  startTime : num
}.
Arguments mkFirstInputEntry {num}.
Arguments processingStart {num}.
Arguments startTime {num}.

Record EventEntry (num : Type) : Type := mkEventEntry {
  duration : num
}.
Arguments mkEventEntry {num}.
Arguments duration {num}.

Record WebVitals (num : Type) : Type := mkWebVitals {
  lcp : option num;
  fid : option num;
  cls : option num;
  inp : option num
}.
Arguments mkWebVitals {num}.
Arguments lcp {num}.
Arguments fid {num}.
Arguments cls {num}.
Arguments inp {num}.

(** The React state, the closure variables [clsValue] and [worstInp], which
    observers the host currently feeds, the number of [setVitals] calls and
    the console. *)
Record state (num : Type) : Type := mkState {
  vitals : WebVitals num;
  clsValue : num;
  worstInp : num;
  lcpObserving : bool;
  clsObserving : bool;
  fidObserving : bool;
  inpObserving : bool;
  setVitals_calls : nat;
  console : list string
}.
Arguments mkState {num}.
Arguments vitals {num}.
Arguments clsValue {num}.
Arguments worstInp {num}.
Arguments lcpObserving {num}.
Arguments clsObserving {num}.
Arguments fidObserving {num}.
Arguments inpObserving {num}.
Arguments setVitals_calls {num}.
Arguments console {num}.

(** What the host hands to an observer callback: [list.getEntries()]. *)
Inductive delivery (num : Type) : Type :=
| LcpEntries (entries : list (LCPEntry num))
| ClsEntries (entries : list (LayoutShiftEntry num))
| FidEntries (entries : list (FirstInputEntry num))
| InpEntries (entries : list (EventEntry num)).
Arguments LcpEntries {num}.
Arguments ClsEntries {num}.
Arguments FidEntries {num}.
Arguments InpEntries {num}.

Inductive event (num : Type) : Type :=
| Deliver (d : delivery num)
| Stop.
Arguments Deliver {num}.
Arguments Stop {num}.

Section Observers.
Context {num : Type} {N : Number num}.

(** [a || b] on numbers. *)
Definition or_else (a b : num) : num := if num_truthy a then a else b.

(** [setVitals(prev => f(prev))].  React may run the updater later than
    the call; the updaters of this hook read [clsValue] and [worstInp]
    when they run, and these only move forward, so running each updater
    at its call gives the state React settles on. *)
Definition setVitals (f : WebVitals num -> WebVitals num) (s : state num)
  : state num :=
  mkState (f (vitals s)) (clsValue s) (worstInp s) (lcpObserving s)
          (clsObserving s) (fidObserving s) (inpObserving s)
          (S (setVitals_calls s)) (console s).

Definition set_clsValue (v : num) (s : state num) : state num :=
  mkState (vitals s) v (worstInp s) (lcpObserving s) (clsObserving s)
          (fidObserving s) (inpObserving s) (setVitals_calls s) (console s).

Definition set_worstInp (v : num) (s : state num) : state num :=
  mkState (vitals s) (clsValue s) v (lcpObserving s) (clsObserving s)
          (fidObserving s) (inpObserving s) (setVitals_calls s) (console s).

Definition console_warn (msg : string) (s : state num) : state num :=
  mkState (vitals s) (clsValue s) (worstInp s) (lcpObserving s)
          (clsObserving s) (fidObserving s) (inpObserving s)
          (setVitals_calls s) (console s ++ [msg]).

Definition observing (m : metric) (s : state num) : bool :=
  match m with
  | LCP => lcpObserving s
  | CLS => clsObserving s
  | FID => fidObserving s
  | INP => inpObserving s
  end.

Definition set_observing (m : metric) (b : bool) (s : state num)
  : state num :=
  mkState (vitals s) (clsValue s) (worstInp s)
          (match m with LCP => b | _ => lcpObserving s end)
          (match m with CLS => b | _ => clsObserving s end)
          (match m with FID => b | _ => fidObserving s end)
          (match m with INP => b | _ => inpObserving s end)
          (setVitals_calls s) (console s).

(** The field of the snapshot a metric reports into. *)
Definition field (m : metric) (v : WebVitals num) : option num :=
  match m with
  | LCP => lcp v
  | CLS => cls v
  | FID => fid v
  | INP => inp v
  end.

(** The callback of [lcpObserver]: the last entry of the list;
    [entries[entries.length - 1]] of an empty list is [undefined] and
    reading its [renderTime] throws. *)
Definition lcp_callback (entries : list (LCPEntry num)) (s : state num)
  : completion (state num) :=
  match rev entries with
  | [] => Throw (TypeError "Cannot read properties of undefined")
  | lastEntry :: _ =>
      let lcpValue :=
        or_else (or_else (renderTime lastEntry) (loadTime lastEntry))
                num_zero in
      Normal (setVitals
                (fun prev => mkWebVitals (Some lcpValue) (fid prev)
                                         (cls prev) (inp prev)) s)
  end.

(** One turn of the [for] loop of [clsObserver]. *)
Definition cls_entry (s : state num) (entry : LayoutShiftEntry num)
  : state num :=
  if negb (hadRecentInput entry)
  then
    let s1 := set_clsValue (num_add (clsValue s) (value entry)) s in
    setVitals (fun prev => mkWebVitals (lcp prev) (fid prev)
                                       (Some (clsValue s1)) (inp prev)) s1
  else s.

Definition cls_callback (entries : list (LayoutShiftEntry num))
  (s : state num) : completion (state num) :=
  Normal (fold_left cls_entry entries s).

(** The callback of [fidObserver]: [list.getEntries()[0]], if any. *)
Definition fid_callback (entries : list (FirstInputEntry num))
  (s : state num) : completion (state num) :=
  match entries with
  | firstInput :: _ =>
      Normal (setVitals
                (fun prev =>
                   mkWebVitals (lcp prev)
                     (Some (num_sub (processingStart firstInput)
                                    (startTime firstInput)))
                     (cls prev) (inp prev)) s)
  | [] => Normal s
  end.

(** One turn of the [for] loop of [inpObserver]. *)
Definition inp_entry (s : state num) (entry : EventEntry num) : state num :=
  if num_truthy (duration entry) && num_gt (duration entry) (worstInp s)
  then
    let s1 := set_worstInp (duration entry) s in
    setVitals (fun prev => mkWebVitals (lcp prev) (fid prev) (cls prev)
                                       (Some (worstInp s1))) s1
  else s.

Definition inp_callback (entries : list (EventEntry num)) (s : state num)
  : completion (state num) :=
  Normal (fold_left inp_entry entries s).

(** [observer.observe({ type, buffered: true })] on a host that accepts
    the entry types [supported] and rejects the others. *)
Definition observe (supported : string -> bool) (m : metric)
  (s : state num) : completion (state num) :=
  if supported (entryType m)
  then Normal (set_observing m true s)
  else Throw (NotSupportedError (entryType m)).

(** [try { observer.observe(...) } catch { console.warn(msg) }] *)
Definition try_observe (supported : string -> bool) (m : metric)
  (msg : string) (s : state num) : completion (state num) :=
  try_catch (observe supported m s) (Normal (console_warn msg s)).

Definition initial : state num :=
  mkState (mkWebVitals None None None None) num_zero num_zero
          false false false false 0 [].

(** The effect body. *)
Definition mount (supported : string -> bool) : completion (state num) :=
  s1 <- try_observe supported LCP "LCP not supported" initial ;;
  s2 <- try_observe supported CLS "CLS not supported" s1 ;;
  s3 <- try_observe supported FID "FID not supported" s2 ;;
  s4 <- try_observe supported INP
          "INP not supported, using FID as fallback" s3 ;;
  Normal s4.

(** The cleanup closure: the four [disconnect()] calls. *)
Definition cleanup (s : state num) : state num :=
  set_observing INP false
    (set_observing FID false
       (set_observing CLS false (set_observing LCP false s))).

Definition metric_of (d : delivery num) : metric :=
  match d with
  | LcpEntries _ => LCP
  | ClsEntries _ => CLS
  | FidEntries _ => FID
  | InpEntries _ => INP
  end.

Definition callback (d : delivery num) (s : state num)
  : completion (state num) :=
  match d with
  | LcpEntries l => lcp_callback l s
  | ClsEntries l => cls_callback l s
  | FidEntries l => fid_callback l s
  | InpEntries l => inp_callback l s
  end.

(** The host calls back only an observer that is observing; an exception
    of a callback is reported by the host. *)
Definition step (s : state num) (e : event num) : state num :=
  match e with
  | Deliver d =>
      if observing (metric_of d) s
      then match callback d s with
           | Normal s' => s'
           | Throw _ => s
           end
      else s
  | Stop => cleanup s
  end.

Definition run (es : list (event num)) (s : state num) : state num :=
  fold_left step es s.

(** The session of a host: the effect, then the events.  [None] when the
    effect throws. *)
Definition session (supported : string -> bool) (es : list (event num))
  : option (state num) :=
  match mount supported with
  | Normal s => Some (run es s)
  | Throw _ => None
  end.

(** The layout-shift entries and the event entries of a list of events,
    in the order of delivery. *)
Definition shifts (es : list (event num)) : list (LayoutShiftEntry num) :=
  flat_map (fun e => match e with
                     | Deliver (ClsEntries l) => l
                     | _ => []
                     end) es.

Definition interactions (es : list (event num)) : list (EventEntry num) :=
  flat_map (fun e => match e with
                     | Deliver (InpEntries l) => l
                     | _ => []
                     end) es.

(** What belongs to one metric: its field of the snapshot, whether its
    observer is fed, and the closure variable its callback accumulates in. *)
Definition acc (m : metric) (s : state num) : num :=
  match m with
  | CLS => clsValue s
  | INP => worstInp s
  | _ => num_zero
  end.

Definition view (m : metric) (s : state num) : option num * bool * num :=
  (field m (vitals s), observing m s, acc m s).

(** What the loop of [clsObserver], and the loop of [inpObserver], leave
    alone. *)
Definition beside_cls (s : state num) :=
  (lcp (vitals s), fid (vitals s), inp (vitals s), worstInp s,
   (lcpObserving s, clsObserving s, fidObserving s, inpObserving s)).

Definition beside_inp (s : state num) :=
  (lcp (vitals s), fid (vitals s), cls (vitals s), clsValue s,
   (lcpObserving s, clsObserving s, fidObserving s, inpObserving s)).

(** The entries the CLS score counts. *)
Definition counted (l : list (LayoutShiftEntry num))
  : list (LayoutShiftEntry num) :=
  filter (fun entry => negb (hadRecentInput entry)) l.

(** Left-to-right sum from [a], as [+=] computes it. *)
Definition sum_from (a : num) (l : list num) : num := fold_left num_add l a.

End Observers.

End Vitals.

(** ** useNetworkMonitor: the call interceptor *)

Module Network.

(** Function values that can sit in [window.fetch], compared by reference: a
    function the hook did not create (the platform's [fetch], or whatever
    other code installed), or the [async (...args) => ...] closure an effect
    run created, which captures its [originalFetch]. *)
Inductive fetch_fn : Type :=
| Extern (id : nat)
| Wrapper (closure : nat) (originalFetch : fetch_fn).

(** Reference equality, [f === g]. *)
Fixpoint fetch_fn_eqb (f g : fetch_fn) : bool :=
  match f, g with
  | Extern i, Extern j => Nat.eqb i j
  | Wrapper c f', Wrapper d g' => Nat.eqb c d && fetch_fn_eqb f' g'
  | _, _ => false
  end.

Record Response : Type := mkResponse {
  response_id : nat;
  response_status : Z
}.

(** How the promise [originalFetch(...args)] settles. *)
Inductive outcome : Type :=
| Fulfilled (response : Response)
| Rejected (err : error).

Record NetworkRequest : Type := mkNetworkRequest {
  url : string;
  status : Z;
  duration : Q;
  timestamp : Z
}.

(** [parseFloat(x.toFixed(2))].  [toFixed(2)] prints the integer [n] for
    which [n / 100] is nearest to the magnitude of [x], the larger one on a
    tie, behind the sign of [x]; from [1e21] on it prints [x] itself. *)
Definition parseFloat_toFixed2 (x : Q) : Q :=
  if Qle_bool (inject_Z (10 ^ 21)) (Qabs x) then x
  else if Qle_bool 0 x
       then Qmake (Qfloor (x * 100 + (1 # 2))) 100
       else - Qmake (Qfloor ((- x) * 100 + (1 # 2))) 100.

(** An invocation of the wrapper that awaits [originalFetch(...args)]:
    [args[0].toString()] and the [startTime] it read. *)
Record call : Type := mkCall {
  call_url : string;
  startTime : Q
}.

(** The global [window.fetch], the allocator of closures, the React state
    [requests], the wrapper invocations in flight, the records handed to
    [setRequests] (newest first) and the outcomes handed back to the callers
    of the wrapper (newest first). *)
Record world : Type := mkWorld {
  window_fetch : fetch_fn;
  next_closure : nat;
  requests : list NetworkRequest;
  in_flight : list call;
  setRequests_calls : list NetworkRequest;
  returned : list outcome
}.

(** What one run of the effect creates: the captured [originalFetch] (shared
    by the wrapper and the cleanup closure) and the wrapper. *)
Record effect : Type := mkEffect {
  originalFetch : fetch_fn;
  wrapper : fetch_fn
}.

(** The page before the hook's effect runs; [useState([])]. *)
Definition initial (f : fetch_fn) (n : nat) : world :=
  mkWorld f n [] [] [] [].

(** The effect body: capture [window.fetch], install the wrapper. *)
Definition mount (w : world) : world * effect :=
  let original := window_fetch w in
  let wrap := Wrapper (next_closure w) original in
  (mkWorld wrap (S (next_closure w)) (requests w) (in_flight w)
           (setRequests_calls w) (returned w),
   mkEffect original wrap).

(** The cleanup closure: [window.fetch = originalFetch]. *)
Definition cleanup (c : effect) (w : world) : world :=
  mkWorld (originalFetch c) (next_closure w) (requests w) (in_flight w)
          (setRequests_calls w) (returned w).

(** [setRequests((prev) => [newReq, ...prev].slice(0, 5))] *)
Definition setRequests (newReq : NetworkRequest) (w : world) : world :=
  mkWorld (window_fetch w) (next_closure w)
          (firstn 5 (newReq :: requests w)) (in_flight w)
          (newReq :: setRequests_calls w) (returned w).

(** The wrapper up to its [await]: read the clock, call [originalFetch]. *)
Definition wrapper_call (u : string) (now : Q) (w : world) : world :=
  mkWorld (window_fetch w) (next_closure w) (requests w)
          (in_flight w ++ [mkCall u now]) (setRequests_calls w) (returned w).

(** The record the wrapper builds once [originalFetch] has settled with [o];
    [now] and [dateNow] are the reads of [performance.now()] and
    [Date.now()] on that path. *)
Definition record_of (c : call) (o : outcome) (now : Q) (dateNow : Z)
  : NetworkRequest :=
  match o with
  | Fulfilled response =>
      let duration := now - startTime c in
      mkNetworkRequest (call_url c) (response_status response)
                       (parseFloat_toFixed2 duration) dateNow
  | Rejected _ =>
      mkNetworkRequest (call_url c) 0 (now - startTime c) dateNow
  end.

(** What the wrapper's own promise settles with: [return response] or
    [throw err]. *)
Definition wrapper_outcome (o : outcome) : outcome :=
  match o with
  | Fulfilled response => Fulfilled response
  | Rejected err => Rejected err
  end.

(** The wrapper after its [await]. *)
Definition wrapper_settle (c : call) (o : outcome) (now : Q) (dateNow : Z)
  (w : world) : world :=
  let w1 := setRequests (record_of c o now dateNow) w in
  mkWorld (window_fetch w1) (next_closure w1) (requests w1) (in_flight w1)
          (setRequests_calls w1) (wrapper_outcome o :: returned w1).

Definition remove_nth {A : Type} (n : nat) (l : list A) : list A :=
  firstn n l ++ skipn (S n) l.

Inductive event : Type :=
| Call (u : string) (now : Q)
    (* some caller invokes [window.fetch(u)] *)
| Settle (n : nat) (o : outcome) (now : Q) (dateNow : Z)
    (* the [originalFetch] call of the [n]-th invocation in flight settles *)
| Assign (f : fetch_fn)
    (* other code assigns [window.fetch = f] *)
| Stop.
    (* the stop handle is invoked *)

(** The steps of a page on which the effect [c] ran.  A call reaches the
    wrapper when the wrapper is the function in [window.fetch]; any other
    function there is not observed by this hook. *)
Definition step (c : effect) (w : world) (e : event) : world :=
  match e with
  | Call u now =>
      if fetch_fn_eqb (window_fetch w) (wrapper c)
      then wrapper_call u now w
      else w
  | Settle n o now dateNow =>
      match nth_error (in_flight w) n with
      | Some k =>
          wrapper_settle k o now dateNow
            (mkWorld (window_fetch w) (next_closure w) (requests w)
                     (remove_nth n (in_flight w)) (setRequests_calls w)
                     (returned w))
      | None => w
      end
  | Assign f =>
      mkWorld f (next_closure w) (requests w) (in_flight w)
              (setRequests_calls w) (returned w)
  | Stop => cleanup c w
  end.

Definition run (c : effect) (es : list event) (w : world) : world :=
  fold_left (step c) es w.

(** A call together with how and when its [originalFetch] settles. *)
Record exchange : Type := mkExchange {
  x_url : string;
  x_start : Q;
  x_outcome : outcome;
  x_end : Q;
  x_date : Z
}.

(** Calls made through [window.fetch] one after the other, each settled
    before the next is made. *)
Definition sequential (xs : list exchange) : list event :=
  flat_map (fun x => [Call (x_url x) (x_start x);
                      Settle 0 (x_outcome x) (x_end x) (x_date x)]) xs.

Definition record_of_exchange (x : exchange) : NetworkRequest :=
  record_of (mkCall (x_url x) (x_start x)) (x_outcome x) (x_end x) (x_date x).

(** The history shown is the five newest of all the records made. *)
Definition history_ok (w : world) : Prop :=
  requests w = firstn 5 (setRequests_calls w).

Definition is_assign (e : event) : bool :=
  match e with Assign _ => true | _ => false end.

End Network.

(** ** Accounts of a frame-rate session *)

(** The sum of a list of integers. *)
Definition Zsum (l : list Z) : Z := fold_right Z.add 0%Z l.

(** The counter and the rates reported so far account for at most [k]
    invocations. *)
Definition accounted (k : Z) (s : Fps.state) : Prop :=
  (0 <= Fps.frameCount s)%Z /\
  Forall (fun r => (0 <= r)%Z) (Fps.setFps_calls s) /\
  (Zsum (Fps.setFps_calls s) + Fps.frameCount s <= k)%Z.

(** The frames of a host that renders every [p] milliseconds from [t0] on:
    the [i]-th at [t0 + i * p], for [i] from [a + 1] to [a + n]. *)
Definition steady_frames (t0 p : Q) (a n : nat) : list Q :=
  map (fun i => t0 + inject_Z (Z.of_nat i) * p) (seq (S a) n).

(** ** Readings of a vitals session *)

Module VitalsReadings.
Import Vitals.

Section Readings.
Context {num : Type} {N : Number num}.

(** [lastEntry.renderTime || lastEntry.loadTime || 0] *)
Definition lcp_value (entry : LCPEntry num) : num :=
  or_else (or_else (renderTime entry) (loadTime entry)) num_zero.

(** [firstInput.processingStart - firstInput.startTime] *)
Definition fid_value (entry : FirstInputEntry num) : num :=
  num_sub (processingStart entry) (startTime entry).

(** The largest-contentful-paint entries of a list of deliveries, in the
    order of delivery. *)
Definition paints (ds : list (delivery num)) : list (LCPEntry num) :=
  flat_map (fun d => match d with LcpEntries l => l | _ => [] end) ds.

(** The first entry of every first-input delivery that has one. *)
Definition first_inputs (ds : list (delivery num))
  : list (FirstInputEntry num) :=
  flat_map (fun d => match d with
                     | FidEntries (firstInput :: _) => [firstInput]
                     | _ => []
                     end) ds.

(** The last element of a list, if any. *)
Definition last_of {A : Type} (l : list A) : option A := hd_error (rev l).

Definition is_some {A : Type} (o : option A) : bool :=
  match o with Some _ => true | None => false end.

End Readings.

End VitalsReadings.

(** ** Dashboard: what the overlay derives from the values of the hooks *)

(** [x < y] on numbers, as a boolean test. *)
Definition ltb (x y : Q) : bool := negb (Qle_bool y x).


Module Dashboard.

(** *** The memory bar *)

(** The style object of [styles.barFill]: the width in percent and the
    background colour (the constant properties are left out). *)
Record bar : Type := mkBar {
  width_percent : Q;
  backgroundColor : string
}.

Definition barFill (percent : Q) : bar :=
  mkBar (Qmin percent 100) (if gtb percent 80 then "#ff0000" else "#00ff41").

(** [memory && ... styles.barFill((memory.used / memory.limit) * 100)] *)
Definition memory_bar (memory : option Memory.sample) : option bar :=
  match memory with
  | Some m => Some (barFill (Memory.used m / Memory.limit m * 100))
  | None => None
  end.

(** *** Colours and texts of the vitals (variant with [getVitalColor]) *)

(** The keys of the snapshot of this variant. *)
Inductive vital_key : Type := lcp | fcp | cls | inp | ttfb.

Definition getVitalColor (metric : vital_key) (value : option Q) : string :=
  match value with
  | None => "#888"
  | Some value =>
      match metric with
      | lcp => if ltb value 2500 then "#00ff41"
               else if ltb value 4000 then "#ffa500" else "#ff0000"
      | fcp => if ltb value 1800 then "#00ff41"
               else if ltb value 3000 then "#ffa500" else "#ff0000"
      | cls => if ltb value 0.1 then "#00ff41"
               else if ltb value 0.25 then "#ffa500" else "#ff0000"
      | inp => if ltb value 200 then "#00ff41"
               else if ltb value 500 then "#ffa500" else "#ff0000"
      | ttfb => if ltb value 800 then "#00ff41"
                else if ltb value 1800 then "#ffa500" else "#ff0000"
      end
  end.

(** How bad a colour of [getVitalColor] is: green, orange, red. *)
Definition severity (color : string) : nat :=
  if String.eqb color "#00ff41" then 0
  else if String.eqb color "#ffa500" then 1
  else if String.eqb color "#ff0000" then 2
  else 3.

(** [s.padStart(n, "0")] *)
Definition padStart0 (n : nat) (s : string) : string :=
  String.concat "" (repeat "0"%string (n - String.length s)) ++ s.

(** [x.toFixed(digits)]: the sign, then the digits of the integer nearest to
    the magnitude of [x] times [10 ^ digits] (the larger on a tie), padded to
    [digits + 1] digits, with a point before the last [digits] of them.  From
    [1e21] on the number is printed with an exponent, which is not modelled:
    [None]. *)
Definition toFixed (digits : nat) (x : Q) : option string :=
  if Qle_bool (inject_Z (10 ^ 21)) (Qabs x) then None
  else
    let n := Qfloor (Qabs x * inject_Z (10 ^ Z.of_nat digits) + (1 # 2)) in
    let m := padStart0 (S digits) (DecimalString.NilZero.string_of_int (Z.to_int n)) in
    let k := String.length m in
    let sign := if ltb x 0 then "-"%string else ""%string in
    Some (sign
          ++ (match digits with
              | O => m
              | S _ => substring 0 (k - digits) m ++ "."
                       ++ substring (k - digits) digits m
              end))%string.


(** *** Texts of the vitals (variant without [formatVital]) *)

(** [value ? `${value.toFixed(0)}ms` : 'N/A'], the text of the rows LCP, FID
    and INP: [null] and [0] are falsy. *)
Definition ms_text (value : option Q) : option string :=
  match value with
  | Some v =>
      if negb (Qeq_bool v 0)
      then match toFixed 0 v with
           | Some digits => Some (digits ++ "ms")%string
           | None => None
           end
      else Some "N/A"%string
  | None => Some "N/A"%string
  end.

(** [value !== null ? value.toFixed(3) : 'N/A'], the text of the row CLS. *)
Definition cls_text (value : option Q) : option string :=
  match value with
  | Some v => toFixed 3 v
  | None => Some "N/A"%string
  end.

(** *** The rows of the network section *)

(** [s.split('/')] *)
Fixpoint split_slash (s : string) : list string :=
  match s with
  | EmptyString => [EmptyString]
  | String c rest =>
      if Ascii.eqb c "/"
      then EmptyString :: split_slash rest
      else match split_slash rest with
           | segment :: segments => String c segment :: segments
           | [] => [String c EmptyString]
           end
  end.

(** [req.url.split('/').pop() || req.url] *)
Definition request_label (url : string) : string :=
  let popped := last (split_slash url) EmptyString in
  if String.eqb popped "" then url else popped.

(** [req.status >= 400 ? 'red' : 'inherit'] *)
Definition status_color (status : Z) : string :=
  if (400 <=? status)%Z then "red" else "inherit".

(** *** Dragging *)

Record point : Type := mkPoint {
  x : Q;
  y : Q
}.

(** The state [position], the refs [isDragging] and [dragOffset], and the
    state [minimized]. *)
Record state : Type := mkState {
  position : point;
  isDragging : bool;
  dragOffset : point;
  minimized : bool
}.

Definition initial : state :=
  mkState (mkPoint 20 20) false (mkPoint 0 0) false.

(** [handleMouseDown], with [e.button], [e.clientX] and [e.clientY]. *)
Definition handleMouseDown (button : Z) (clientX clientY : Q) (s : state)
  : state :=
  if negb (Z.eqb button 0) then s
  else mkState (position s) true
               (mkPoint (clientX - x (position s)) (clientY - y (position s)))
               (minimized s).

(** [handleMouseMove], a listener of the window. *)
Definition handleMouseMove (clientX clientY : Q) (s : state) : state :=
  if negb (isDragging s) then s
  else mkState (mkPoint (clientX - x (dragOffset s))
                        (clientY - y (dragOffset s)))
               (isDragging s) (dragOffset s) (minimized s).

(** [handleMouseUp], a listener of the window. *)
Definition handleMouseUp (s : state) : state :=
  mkState (position s) false (dragOffset s) (minimized s).

Definition setMinimized (b : bool) (s : state) : state :=
  mkState (position s) (isDragging s) (dragOffset s) b.

Inductive event : Type :=
| MouseDown (button : Z) (clientX clientY : Q)
    (* on the header, or on the pill when minimized *)
| MouseMove (clientX clientY : Q)
| MouseUp
| Minimize
| Maximize.

Definition step (s : state) (e : event) : state :=
  match e with
  | MouseDown button clientX clientY => handleMouseDown button clientX clientY s
  | MouseMove clientX clientY => handleMouseMove clientX clientY s
  | MouseUp => handleMouseUp s
  | Minimize => setMinimized true s
  | Maximize => setMinimized false s
  end.

Definition run (es : list event) (s : state) : state := fold_left step es s.

(** A press of the left button. *)
Definition is_grab (e : event) : bool :=
  match e with
  | MouseDown button _ _ => Z.eqb button 0
  | _ => false
  end.

End Dashboard.

(** ** useWebVitals, the variant on the [web-vitals] package

    src/hooks/useWebVitals.ts.  The package is the host: [onLCP(callback)]
    and its siblings register a callback, which the package calls with a
    metric whenever it has a value to report.  The effect registers five
    callbacks and returns nothing. *)

Module VitalsPackage.

Inductive metric : Type := LCP | FCP | CLS | INP | TTFB.

Definition metric_eqb (a b : metric) : bool :=
  match a, b with
  | LCP, LCP | FCP, FCP | CLS, CLS | INP, INP | TTFB, TTFB => true
  | _, _ => false
  end.

Record WebVitals : Type := mkWebVitals {
  lcp : option Q;
  fcp : option Q;
  cls : option Q;
  inp : option Q;
  ttfb : option Q
}.

(** The React state, the metrics whose callback the package holds, and the
    number of [setVitals] calls. *)
Record state : Type := mkState {
  vitals : WebVitals;
  registered : list metric;
  setVitals_calls : nat
}.

Definition setVitals (f : WebVitals -> WebVitals) (s : state) : state :=
  mkState (f (vitals s)) (registered s) (S (setVitals_calls s)).

(** The callback handed to [onLCP], [onFCP], [onCLS], [onINP] or [onTTFB],
    called with [metric.value]. *)
Definition callback (m : metric) (value : Q) (s : state) : state :=
  setVitals
    (fun prev =>
       match m with
       | LCP => mkWebVitals (Some value) (fcp prev) (cls prev) (inp prev)
                            (ttfb prev)
       | FCP => mkWebVitals (lcp prev) (Some value) (cls prev) (inp prev)
                            (ttfb prev)
       | CLS => mkWebVitals (lcp prev) (fcp prev) (Some value) (inp prev)
                            (ttfb prev)
       | INP => mkWebVitals (lcp prev) (fcp prev) (cls prev) (Some value)
                            (ttfb prev)
       | TTFB => mkWebVitals (lcp prev) (fcp prev) (cls prev) (inp prev)
                             (Some value)
       end) s.

(** [onLCP(callback)] and its siblings. *)
Definition register (m : metric) (s : state) : state :=
  mkState (vitals s) (registered s ++ [m]) (setVitals_calls s).

Definition initial : state :=
  mkState (mkWebVitals None None None None None) [] 0.

(** The effect body. *)
Definition mount : state :=
  register TTFB (register INP (register CLS (register FCP (register LCP
    initial)))).

(** The effect returns no cleanup closure: when the component unmounts,
    React has nothing of this effect to run. *)
Definition cleanup (s : state) : state := s.

Inductive event : Type :=
| Report (m : metric) (value : Q)   (* the package has a value for [m] *)
| Stop.                             (* the component unmounts *)

Definition step (s : state) (e : event) : state :=
  match e with
  | Report m value =>
      if existsb (metric_eqb m) (registered s) then callback m value s else s
  | Stop => cleanup s
  end.

Definition run (es : list event) (s : state) : state := fold_left step es s.

Definition field (m : metric) (v : WebVitals) : option Q :=
  match m with
  | LCP => lcp v
  | FCP => fcp v
  | CLS => cls v
  | INP => inp v
  | TTFB => ttfb v
  end.

End VitalsPackage.

(** * Theorems *)

(** ** Comparisons *)

Lemma geb_true (x y : Q) : geb x y = true <-> y <= x.
Proof. unfold geb. apply Qle_bool_iff. Qed.

Lemma geb_false (x y : Q) : geb x y = false <-> x < y.
Proof.
  unfold geb. split; intro H.
  - apply Qnot_le_lt. intro L. apply Qle_bool_iff in L. congruence.
  - destruct (Qle_bool y x) eqn:E; [|reflexivity].
    apply Qle_bool_iff in E. exfalso. exact (Qlt_not_le _ _ H E).
Qed.

Lemma gtb_true (x y : Q) : gtb x y = true <-> y < x.
Proof. unfold gtb. rewrite negb_true_iff. apply (geb_false y x). Qed.

Lemma gtb_false (x y : Q) : gtb x y = false <-> x <= y.
Proof. unfold gtb. rewrite negb_false_iff. apply Qle_bool_iff. Qed.

(** ** The frame-rate sampler *)

Section FpsFacts.
Import Fps.

Lemma loop_queued now s : queued (loop now s).
Proof. unfold loop, queued. destruct (geb _ _); reflexivity. Qed.

Lemma loop_calls now s :
  setFps_calls (loop now s)
  = setFps_calls s ++ rates (frameCount s) (lastTime s) [now].
Proof.
  unfold loop; simpl. destruct (geb _ _); simpl.
  - reflexivity.
  - now rewrite app_nil_r.
Qed.

Lemma loop_window now s :
  (geb (now - lastTime s) 1000 = true ->
   frameCount (loop now s) = 0%Z /\ lastTime (loop now s) = now) /\
  (geb (now - lastTime s) 1000 = false ->
   frameCount (loop now s) = (frameCount s + 1)%Z /\
   lastTime (loop now s) = lastTime s).
Proof. unfold loop. split; intros ->; simpl; auto. Qed.

Lemma run_frames ts : forall s,
  queued s ->
  queued (run (map Frame ts) s) /\
  setFps_calls (run (map Frame ts) s)
  = setFps_calls s ++ rates (frameCount s) (lastTime s) ts.
Proof.
  induction ts as [|t ts IH]; intros s Q.
  - simpl. split; [exact Q | now rewrite app_nil_r].
  - simpl. rewrite Q.
    set (s0 := mkState _ _ _ None _ _ _).
    destruct (IH (loop t s0) (loop_queued t s0)) as [Q' E].
    split; [exact Q'|]. rewrite E, loop_calls. subst s0; simpl.
    destruct (loop_window t (mkState (frameCount s) (lastTime s)
                (animationFrameId s) None (next_handle s) (fps s)
                (setFps_calls s))) as [Ht Hf]; simpl in Ht, Hf.
    destruct (geb (t - lastTime s) 1000) eqn:G.
    + destruct (Ht eq_refl) as [-> ->]. now rewrite <- app_assoc.
    + destruct (Hf eq_refl) as [-> ->]. now rewrite app_nil_r.
Qed.

(** After the cleanup nothing is queued, and then no event does anything. *)
Lemma cleanup_unscheduled s : queued s -> scheduled (cleanup s) = None.
Proof.
  unfold queued, cleanup. intros ->. now rewrite Nat.eqb_refl.
Qed.

Lemma run_unscheduled es : forall s, scheduled s = None -> run es s = s.
Proof.
  induction es as [|e es IH]; intros s U; [reflexivity|].
  simpl. destruct e; simpl.
  - rewrite U. now apply IH.
  - unfold cleanup. rewrite U. now apply IH.
Qed.

Lemma cleanup_calls s : setFps_calls (cleanup s) = setFps_calls s.
Proof.
  unfold cleanup. destruct (scheduled s); [|reflexivity].
  destruct (Nat.eqb _ _); reflexivity.
Qed.

Lemma rates_below pre : forall n start rest,
  Forall (fun t => t - start < 1000) pre ->
  rates n start (pre ++ rest)
  = rates (n + Z.of_nat (length pre)) start rest.
Proof.
  induction pre as [|t pre IH]; intros n start rest F.
  - simpl. now rewrite Z.add_0_r.
  - inversion F as [|? ? Ht F']; subst.
    cbn [app rates]. apply geb_false in Ht. rewrite Ht.
    rewrite IH by assumption. f_equal. cbn [length]. lia.
Qed.

Lemma Windows_rates n start ts outs :
  Windows n start ts outs -> rates n start ts = outs.
Proof.
  induction 1 as [n start ts F | n start pre t rest outs F Ht W IH].
  - rewrite <- (app_nil_r ts), rates_below by assumption. reflexivity.
  - rewrite rates_below by assumption. cbn [rates].
    apply geb_true in Ht. rewrite Ht. now rewrite IH.
Qed.

Lemma Windows_cons n start t ts outs :
  t - start < 1000 ->
  Windows (n + 1) start ts outs -> Windows n start (t :: ts) outs.
Proof.
  intros Ht W. inversion W as [? ? ? F | ? ? pre t' rest outs' F Ht' W']; subst.
  - apply W_open. now constructor.
  - replace (n + 1 + Z.of_nat (length pre) + 1)%Z
      with (n + Z.of_nat (length (t :: pre)) + 1)%Z by (cbn [length]; lia).
    apply (W_closed n start (t :: pre) t' rest outs'); auto.
Qed.

Lemma rates_Windows ts : forall n start, Windows n start ts (rates n start ts).
Proof.
  induction ts as [|t ts IH]; intros n start.
  - apply W_open. constructor.
  - cbn [rates]. destruct (geb (t - start) 1000) eqn:G.
    + apply geb_true in G.
      replace ((n + 1) * 1000)%Z
        with ((n + Z.of_nat (@length Q []) + 1) * 1000)%Z by (simpl; lia).
      apply (W_closed n start [] t ts); auto.
    + apply geb_false in G. apply Windows_cons; auto.
Qed.

End FpsFacts.

(** Over exact clock reads, for every sequence of invocations of [loop] (the
    synchronous first call at [t1], then one per frame at the times [ts])
    that ends with the stop handle, whatever the host does afterwards, the
    arguments of [setFps] are the rates of the completed windows of these
    invocations: a window is closed by the first invocation at least 1000 ms
    after its start, its rate is [round (count * 1000 / elapsed)] with
    [count] the invocations of that window, the first call included, the
    next window starts at that invocation with the count back at zero, and
    invocations that do not reach 1000 ms report nothing. *)
Lemma fps_rates_follow_the_windows :
  forall (t0 t1 : Q) (ts : list Q) (after : list Fps.event) (outs : list Z),
    Fps.Windows 0 t0 (t1 :: ts) outs <->
    Fps.setFps_calls
      (Fps.run (map Fps.Frame ts ++ Fps.Stop :: after) (Fps.mount t0 t1))
    = outs.
Proof.
  intros t0 t1 ts after outs.
  assert (E : Fps.setFps_calls
                (Fps.run (map Fps.Frame ts ++ Fps.Stop :: after)
                         (Fps.mount t0 t1))
              = Fps.rates 0 t0 (t1 :: ts)).
  { unfold Fps.run. rewrite fold_left_app. cbn [fold_left Fps.step].
    fold (Fps.run (map Fps.Frame ts) (Fps.mount t0 t1)).
    destruct (run_frames ts (Fps.mount t0 t1)) as [Q E];
      [apply loop_queued|].
    fold (Fps.run after (Fps.cleanup (Fps.run (map Fps.Frame ts) (Fps.mount t0 t1)))).
    rewrite run_unscheduled by (now apply cleanup_unscheduled).
    rewrite cleanup_calls, E. unfold Fps.mount.
    rewrite loop_calls. cbn [Fps.setFps_calls Fps.frameCount Fps.lastTime app].
    set (s0 := Fps.mkState _ _ _ _ _ _ _).
    destruct (loop_window t1 s0) as [Ht Hf]. subst s0.
    cbn [Fps.frameCount Fps.lastTime] in *. cbn [Fps.rates].
    destruct (geb (t1 - t0) 1000) eqn:G.
    - destruct (Ht eq_refl) as [-> ->]. reflexivity.
    - destruct (Hf eq_refl) as [-> ->]. reflexivity. }
  rewrite E. split.
  - apply Windows_rates.
  - intros <-. apply rates_Windows.
Qed.

(** C4. The hook is documented to count the frames rendered within a
    one-second interval, and the claim takes [frameCount] to be the number of
    frames of the window.  The effect starts the loop by calling [loop()]
    itself, and that call increments [frameCount] before any frame was
    rendered.  On a host whose clock reads 0 at both reads of the effect and
    which then renders 50 frames, at 20, 40, ..., 1000 ms, the window closes
    at the fiftieth frame after exactly 1000 ms, and the hook calls
    [setFps(51)], once, where [round (50 * 1000 / 1000)] is 50.  Every number
    of this run is an integer below [2 ^ 53] and the one quotient is exact, so
    binary64 computes the same. *)
Theorem C4_first_window_counts_the_synchronous_call :
  let frames := map Fps.Frame (steady_frames 0 20 0 50) in
  length frames = 50%nat /\
  last (steady_frames 0 20 0 50) 0 - 0 == 1000 /\
  Fps.setFps_calls (Fps.run (frames ++ [Fps.Stop]) (Fps.mount 0 0))
  = [51%Z] /\
  Math_round (inject_Z (50 * 1000) / (last (steady_frames 0 20 0 50) 0 - 0))
  = 50%Z.
Proof.
  cbv zeta. split; [reflexivity|]. split; [reflexivity|].
  split; vm_compute; reflexivity.
Qed.

(** ** The heap sampler *)

Section MemoryFacts.
Import Memory.

(** The samples the ticks of a live timer report: one for each tick at which
    the capability is present. *)
Lemma memory_run_ticks pms : forall s,
  timer_active s = true ->
  timer_active (run (map Tick pms) s) = true /\
  setMemory_calls (run (map Tick pms) s)
  = setMemory_calls s
    ++ flat_map (fun pm => match pm with
                           | Some m =>
                               [Some (mkSample (usedJSHeapSize m / 1024 / 1024)
                                               (jsHeapSizeLimit m / 1024 / 1024))]
                           | None => []
                           end) pms.
Proof.
  induction pms as [|pm pms IH]; intros s A.
  - simpl. split; [exact A | now rewrite app_nil_r].
  - cbn [map run fold_left step]. rewrite A.
    destruct pm as [m|]; cbn [callback flat_map].
    + destruct (IH (setMemory (Some (mkSample (usedJSHeapSize m / 1024 / 1024)
                      (jsHeapSizeLimit m / 1024 / 1024))) s) A) as [A' E].
      split; [exact A'|]. unfold run in E. rewrite E. simpl.
      now rewrite <- app_assoc.
    + apply (IH s A).
Qed.

(** The React state is the last value handed to [setMemory], [null] before
    the first. *)
Lemma memory_run_last es : forall s,
  memory s = last (setMemory_calls s) None ->
  memory (run es s) = last (setMemory_calls (run es s)) None.
Proof.
  induction es as [|e es IH]; intros s L; [exact L|].
  cbn [run fold_left]. apply IH. destruct e as [pm|]; cbn [step].
  - destruct (timer_active s); [|exact L].
    destruct pm as [m|]; cbn [callback]; [|exact L].
    unfold setMemory; simpl. now rewrite last_last.
  - exact L.
Qed.

Lemma memory_run_stopped es : forall s,
  timer_active s = false -> run es s = s.
Proof.
  induction es as [|e es IH]; intros s A; [reflexivity|].
  cbn [run fold_left]. destruct e; cbn [step].
  - rewrite A. now apply IH.
  - destruct s as [i a m c]; simpl in A; subst a. unfold cleanup; simpl.
    now apply IH.
Qed.

Lemma megabytes (b : Q) : b / 1024 / 1024 == b / (1024 * 1024).
Proof. field. Qed.

End MemoryFacts.

(** C5, as stated, fails: on a tick at which [performance.memory] is absent
    the callback calls [setMemory] not at all, so no value, not even [null],
    is emitted on that tick. *)
Lemma C5_counterexample_absent_capability_emits_nothing :
  ~ (exists v : option Memory.sample,
        Memory.setMemory_calls
          (Memory.run [Memory.Tick None] (Memory.mount 7)) = [v]).
Proof. intros [v H]. vm_compute in H. discriminate H. Qed.

(** C5, amended. The callback of the interval timer never throws.  Along the
    ticks of the timer it calls [setMemory] exactly once on each tick at which
    the heap capability is present, with the reported byte counts divided by
    [1024 * 1024], and not at all on a tick at which it is absent; the value
    of the hook is the last sample so reported, and [null] as long as there is
    none. *)
Theorem C5_heap_sample_per_tick_with_capability :
  forall (h : nat) (pms : list (option Memory.MemoryInfo)),
    let s := Memory.run (map Memory.Tick pms) (Memory.mount h) in
    let present :=
      flat_map (fun pm => match pm with Some m => [m] | None => [] end) pms in
    (forall pm s0, exists s', Memory.callback pm s0 = Normal s') /\
    Forall2
      (fun m v =>
         exists smp, v = Some smp /\
           Memory.used smp == Memory.usedJSHeapSize m / (1024 * 1024) /\
           Memory.limit smp == Memory.jsHeapSizeLimit m / (1024 * 1024))
      present (Memory.setMemory_calls s) /\
    Memory.memory s = last (Memory.setMemory_calls s) None.
Proof.
  intros h pms s present. split; [|split].
  - intros [m|] s0; simpl; eauto.
  - subst s present.
    destruct (memory_run_ticks pms (Memory.mount h) eq_refl) as [_ E].
    rewrite E. cbn [Memory.mount Memory.setMemory_calls app].
    clear E. induction pms as [|[m|] pms IH]; cbn [flat_map app].
    + constructor.
    + constructor; [|exact IH].
      eexists; split; [reflexivity|]. simpl. split; apply megabytes.
    + exact IH.
  - apply memory_run_last. reflexivity.
Qed.

(** ** The vitals observer *)

Section VitalsFacts.
Import Vitals.
Context {num : Type} {N : Number num}.

Lemma metric_eq_dec_aux (m1 m2 : metric) : {m1 = m2} + {m1 <> m2}.
Proof. decide equality. Defined.

Lemma cls_entry_beside (s : state num) entry :
  beside_cls (cls_entry s entry) = beside_cls s.
Proof. unfold cls_entry. destruct (negb _); reflexivity. Qed.

Lemma cls_loop_beside entries : forall s : state num,
  beside_cls (fold_left cls_entry entries s) = beside_cls s.
Proof.
  induction entries as [|e l IH]; intro s; [reflexivity|].
  simpl. now rewrite IH, cls_entry_beside.
Qed.

Lemma inp_entry_beside (s : state num) entry :
  beside_inp (inp_entry s entry) = beside_inp s.
Proof. unfold inp_entry. destruct (_ && _); reflexivity. Qed.

Lemma inp_loop_beside entries : forall s : state num,
  beside_inp (fold_left inp_entry entries s) = beside_inp s.
Proof.
  induction entries as [|e l IH]; intro s; [reflexivity|].
  simpl. now rewrite IH, inp_entry_beside.
Qed.

(** A callback leaves the views of the other metrics alone. *)
Lemma callback_frame (d : delivery num) (m : metric) (s s' : state num) :
  metric_of d <> m -> callback d s = Normal s' -> view m s' = view m s.
Proof.
  intros D C. destruct d as [l|l|l|l]; cbn [callback metric_of] in *.
  - unfold lcp_callback in C. destruct (rev l); [discriminate|].
    injection C as <-. destruct m; try congruence; reflexivity.
  - unfold cls_callback in C. injection C as <-.
    pose proof (cls_loop_beside l s) as B. unfold beside_cls in B.
    injection B as B1 B2 B3 B4 B5 B6 B7 B8.
    destruct m; try congruence; unfold view; cbn [field observing acc];
      congruence.
  - unfold fid_callback in C. destruct l; injection C as <-;
      destruct m; try congruence; reflexivity.
  - unfold inp_callback in C. injection C as <-.
    pose proof (inp_loop_beside l s) as B. unfold beside_inp in B.
    injection B as B1 B2 B3 B4 B5 B6 B7 B8.
    destruct m; try congruence; unfold view; cbn [field observing acc];
      congruence.
Qed.

(** A callback leaves every observer as attached as it was. *)
Lemma callback_observing (d : delivery num) (m : metric) (s s' : state num) :
  callback d s = Normal s' -> observing m s' = observing m s.
Proof.
  intros C. destruct d as [l|l|l|l]; cbn [callback] in *.
  - unfold lcp_callback in C. destruct (rev l); [discriminate|].
    injection C as <-. destruct m; reflexivity.
  - unfold cls_callback in C. injection C as <-.
    pose proof (cls_loop_beside l s) as B. unfold beside_cls in B.
    injection B as B1 B2 B3 B4 B5 B6 B7 B8.
    destruct m; cbn [observing]; congruence.
  - unfold fid_callback in C. destruct l; injection C as <-;
      destruct m; reflexivity.
  - unfold inp_callback in C. injection C as <-.
    pose proof (inp_loop_beside l s) as B. unfold beside_inp in B.
    injection B as B1 B2 B3 B4 B5 B6 B7 B8.
    destruct m; cbn [observing]; congruence.
Qed.

(** What a callback does to the view of its own metric depends on that view
    only. *)
Lemma cls_entry_view (s1 s2 : state num) entry :
  view CLS s1 = view CLS s2 ->
  view CLS (cls_entry s1 entry) = view CLS (cls_entry s2 entry).
Proof.
  unfold view; cbn [field observing acc]. intros E. injection E as E1 E2 E3.
  unfold cls_entry. destruct (negb _); simpl; congruence.
Qed.

Lemma inp_entry_view (s1 s2 : state num) entry :
  view INP s1 = view INP s2 ->
  view INP (inp_entry s1 entry) = view INP (inp_entry s2 entry).
Proof.
  unfold view; cbn [field observing acc]. intros E. injection E as E1 E2 E3.
  unfold inp_entry. rewrite E3. destruct (_ && _); simpl; congruence.
Qed.

Lemma callback_own (d : delivery num) (s1 s2 : state num) :
  view (metric_of d) s1 = view (metric_of d) s2 ->
  match callback d s1, callback d s2 with
  | Normal s1', Normal s2' => view (metric_of d) s1' = view (metric_of d) s2'
  | Throw _, Throw _ => True
  | _, _ => False
  end.
Proof.
  destruct d as [l|l|l|l]; cbn [callback metric_of]; intros E.
  - unfold lcp_callback. destruct (rev l); [exact I|].
    unfold view in *; cbn [field observing acc] in *.
    injection E as E1 E2. simpl. congruence.
  - unfold cls_callback. revert s1 s2 E.
    induction l as [|e l IH]; intros s1 s2 E; [exact E|].
    simpl. apply IH. now apply cls_entry_view.
  - unfold fid_callback. destruct l; [exact E|].
    unfold view in *; cbn [field observing acc] in *.
    injection E as E1 E2. simpl. congruence.
  - unfold inp_callback. revert s1 s2 E.
    induction l as [|e l IH]; intros s1 s2 E; [exact E|].
    simpl. apply IH. now apply inp_entry_view.
Qed.

Lemma cleanup_view (m : metric) (s : state num) :
  view m (cleanup s) = (field m (vitals s), false, acc m s).
Proof. destruct m; reflexivity. Qed.

(** One step keeps two states with the same view of [m] that way. *)
Lemma step_view (m : metric) (e : event num) (s1 s2 : state num) :
  view m s1 = view m s2 -> view m (step s1 e) = view m (step s2 e).
Proof.
  intros E. destruct e as [d|]; cbn [step].
  - destruct (metric_eq_dec_aux (metric_of d) m) as [D|D].
    + subst m.
      assert (O : observing (metric_of d) s1 = observing (metric_of d) s2)
        by (unfold view in E; congruence).
      rewrite O. destruct (observing (metric_of d) s2); [|exact E].
      pose proof (callback_own d s1 s2 E) as C.
      destruct (callback d s1), (callback d s2); tauto.
    + assert (F : forall s, view m (if observing (metric_of d) s
                                    then match callback d s with
                                         | Normal s' => s'
                                         | Throw _ => s
                                         end
                                    else s) = view m s).
      { intro s. destruct (observing (metric_of d) s); [|reflexivity].
        destruct (callback d s) eqn:C; [|reflexivity].
        now apply (callback_frame d m s). }
      now rewrite !F.
  - rewrite !cleanup_view. unfold view in E. congruence.
Qed.

Lemma run_view (m : metric) es : forall s1 s2 : state num,
  view m s1 = view m s2 -> view m (run es s1) = view m (run es s2).
Proof.
  induction es as [|e es IH]; intros s1 s2 E; [exact E|].
  cbn [run fold_left]. apply IH. now apply step_view.
Qed.

(** An observer that is not attached never reports. *)
Lemma step_detached (m : metric) (e : event num) (s : state num) :
  observing m s = false -> view m (step s e) = view m s.
Proof.
  intros O. destruct e as [d|]; cbn [step].
  - destruct (metric_eq_dec_aux (metric_of d) m) as [D|D].
    + subst m. now rewrite O.
    + destruct (observing (metric_of d) s); [|reflexivity].
      destruct (callback d s) eqn:C; [|reflexivity].
      now apply (callback_frame d m s).
  - rewrite cleanup_view. unfold view. now rewrite O.
Qed.

Lemma run_detached (m : metric) es : forall s : state num,
  observing m s = false -> view m (run es s) = view m s.
Proof.
  induction es as [|e es IH]; intros s O; [reflexivity|].
  cbn [run fold_left]. pose proof (step_detached m e s O) as E.
  fold (run es (step s e)). rewrite IH; [exact E|].
  unfold view in E. congruence.
Qed.

(** The effect never throws, and attaches exactly the observers whose entry
    type the host accepts. *)
Lemma mount_views (supported : string -> bool) :
  exists s0 : state num,
    mount supported = Normal s0 /\
    forall m, view m s0 = (None, supported (entryType m), num_zero).
Proof.
  unfold mount, try_observe, observe. cbn [entryType].
  destruct (supported "largest-contentful-paint"%string) eqn:S1;
    cbn [try_catch bind];
    destruct (supported "layout-shift"%string) eqn:S2; cbn [try_catch bind];
    destruct (supported "first-input"%string) eqn:S3; cbn [try_catch bind];
    destruct (supported "event"%string) eqn:S4; cbn [try_catch bind];
    eexists; (split; [reflexivity|]);
    intros [| | |]; unfold view; cbn; congruence.
Qed.


Lemma inp_loop_view entries : forall s1 s2 : state num,
  view INP s1 = view INP s2 ->
  view INP (fold_left inp_entry entries s1)
  = view INP (fold_left inp_entry entries s2).
Proof.
  induction entries as [|e l IH]; intros s1 s2 E; [exact E|].
  simpl. apply IH. now apply inp_entry_view.
Qed.

Lemma step_deliver_view (m : metric) (d : delivery num) (s : state num) :
  observing m s = true ->
  view m (step s (Deliver d))
  = view m (match d, m with
            | ClsEntries l, CLS => fold_left cls_entry l s
            | InpEntries l, INP => fold_left inp_entry l s
            | LcpEntries l, LCP | FidEntries l, FID =>
                step s (Deliver d)
            | _, _ => s
            end).
Proof.
  intros O.
  destruct d as [l|l|l|l], m; try reflexivity;
    try (cbn [step metric_of observing] in *; rewrite O; reflexivity);
    cbn [step];
    match goal with
    | |- context [observing (metric_of ?d) s] =>
        destruct (observing (metric_of d) s); [|reflexivity];
        destruct (callback d s) eqn:C; [|reflexivity];
        (eapply callback_frame; [|exact C]); cbn [metric_of]; congruence
    end.
Qed.

Lemma deliver_observing (d : delivery num) (m : metric) (s : state num) :
  observing m (step s (Deliver d)) = observing m s.
Proof.
  cbn [step]. destruct (observing (metric_of d) s); [|reflexivity].
  destruct (callback d s) eqn:C; [|reflexivity].
  now apply (callback_observing d m s).
Qed.


Lemma run_inp_view ds : forall s : state num,
  inpObserving s = true ->
  view INP (run (map Deliver ds) s)
  = view INP (fold_left inp_entry (interactions (map Deliver ds)) s).
Proof.
  induction ds as [|d ds IH]; intros s O; [reflexivity|].
  cbn [map run fold_left]. fold (run (map Deliver ds) (step s (Deliver d))).
  pose proof (step_deliver_view INP d s O) as E.
  assert (O' : inpObserving (step s (Deliver d)) = true)
    by (rewrite <- O; apply (deliver_observing d INP s)).
  rewrite IH by exact O'.
  cbn [interactions flat_map]. fold (interactions (map Deliver ds)).
  destruct d as [l|l|l|l]; cbn [app];
    try (apply inp_loop_view; exact E).
  rewrite fold_left_app. apply inp_loop_view. exact E.
Qed.

(** The loop of [clsObserver] adds up the counted entries, in order. *)
Lemma cls_loop_sum entries : forall s : state num,
  clsValue (fold_left cls_entry entries s)
  = sum_from (clsValue s) (map value (counted entries)) /\
  cls (vitals (fold_left cls_entry entries s))
  = match counted entries with
    | [] => cls (vitals s)
    | _ :: _ => Some (clsValue (fold_left cls_entry entries s))
    end.
Proof.
  induction entries as [|e l IH]; intros s; [split; reflexivity|].
  cbn [fold_left]. destruct (IH (cls_entry s e)) as [V C].
  unfold counted in *. cbn [filter]. unfold cls_entry in *.
  destruct (negb (hadRecentInput e)); cbn [map]; [|split; assumption].
  split; [exact V|]. rewrite C.
  destruct (filter _ l); [|reflexivity].
  cbn [map sum_from fold_left] in V. now rewrite V.
Qed.

End VitalsFacts.

Section VitalsSessions.
Import Vitals.


(** The loop of [inpObserver], on exact numbers, keeps the largest duration
    seen. *)
Lemma inp_loop_worst (entries : list (EventEntry Q)) : forall s : state Q,
  worstInp s = 0 -> inp (vitals s) = None ->
  let s' := fold_left inp_entry entries s in
  let durs := map duration entries in
  (forall d, In d durs -> d <= worstInp s') /\
  0 <= worstInp s' /\
  ((inp (vitals s') = None /\ worstInp s' = 0) \/
   (inp (vitals s') = Some (worstInp s') /\ In (worstInp s') durs /\
    0 < worstInp s')).
Proof.
  intros s W0 I0. induction entries as [|e l IH] using rev_ind.
  - simpl. rewrite W0. split; [intros d []|].
    split; [apply Qle_refl|]. left. split; [assumption|reflexivity].
  - cbv zeta in *. rewrite fold_left_app, map_app. cbn [fold_left map].
    set (s1 := fold_left inp_entry l s) in *.
    destruct IH as [U [P C]].
    unfold inp_entry. cbn [num_truthy num_gt Number_Q].
    destruct (negb (Qeq_bool (duration e) 0) && gtb (duration e) (worstInp s1))
      eqn:T.
    + apply andb_true_iff in T. destruct T as [_ G]. apply gtb_true in G.
      cbn [worstInp set_worstInp setVitals vitals inp].
      split; [|split].
      * intros d D. apply in_app_or in D. destruct D as [D|[<-|[]]].
        -- apply Qlt_le_weak. eapply Qle_lt_trans; [apply U, D|exact G].
        -- apply Qle_refl.
      * apply Qlt_le_weak. eapply Qle_lt_trans; [exact P|exact G].
      * right. split; [reflexivity|]. split.
        -- apply in_or_app. right. now left.
        -- eapply Qle_lt_trans; [exact P|exact G].
    + assert (B : duration e <= worstInp s1).
      { apply andb_false_iff in T. destruct T as [T|T].
        - apply negb_false_iff, Qeq_bool_iff in T. now rewrite T.
        - now apply gtb_false. }
      split; [|split; [exact P|]].
      * intros d D. apply in_app_or in D. destruct D as [D|[<-|[]]]; auto.
      * destruct C as [C|[C1 [C2 C3]]]; [left; exact C|right].
        split; [exact C1|]. split; [|exact C3].
        apply in_or_app. now left.
Qed.

(** The INP observer of a session, on a host that accepts event entries. *)
Lemma session_inp_view {num : Type} {N : Number num}
  (supported : string -> bool) (ds : list (delivery num)) :
  supported "event"%string = true ->
  exists s, session supported (map Deliver ds) = Some s /\
    view INP s
    = view INP (fold_left inp_entry (interactions (map Deliver ds))
                          (set_observing INP true initial)).
Proof.
  intros S. unfold session.
  destruct (mount_views (num:=num) supported) as [s0 [M V]]. rewrite M.
  eexists; split; [reflexivity|].
  pose proof (V INP) as V0. cbn [entryType] in V0. rewrite S in V0.
  assert (O : inpObserving s0 = true)
    by (unfold view in V0; cbn [observing] in V0; congruence).
  rewrite (run_inp_view ds s0 O). apply inp_loop_view. now rewrite V0.
Qed.

End VitalsSessions.

(** C8. On a host that rejects the entry types of any subset of the four
    streams, the effect of the vitals observer completes without throwing
    and attaches exactly the observers of the accepted types.  Whatever the
    host delivers afterwards, the field of a rejected stream stays [null],
    and the field of an accepted stream has the value it has, after the same
    events, on a host that accepts all four. *)
Theorem C8_unsupported_streams_are_isolated :
  forall (num : Type) (N : Number num) (supported : string -> bool),
  exists s0 s_all : Vitals.state num,
    Vitals.mount supported = Normal s0 /\
    Vitals.mount (fun _ => true) = Normal s_all /\
    (forall m, Vitals.observing m s0 = supported (Vitals.entryType m)) /\
    forall (es : list (Vitals.event num)) (m : Vitals.metric),
      (supported (Vitals.entryType m) = false ->
       Vitals.field m (Vitals.vitals (Vitals.run es s0)) = None) /\
      (supported (Vitals.entryType m) = true ->
       Vitals.field m (Vitals.vitals (Vitals.run es s0))
       = Vitals.field m (Vitals.vitals (Vitals.run es s_all))).
Proof.
  intros num N supported.
  destruct (mount_views (num:=num) supported) as [s0 [M V]].
  destruct (mount_views (num:=num) (fun _ => true)) as [sa [Ma Va]].
  exists s0, sa. split; [exact M|]. split; [exact Ma|]. split.
  - intros m. pose proof (V m) as E. unfold Vitals.view in E. congruence.
  - intros es m. split; intros S.
    + assert (O : Vitals.observing m s0 = false)
        by (pose proof (V m) as E; unfold Vitals.view in E; congruence).
      pose proof (run_detached m es s0 O) as R. rewrite (V m) in R.
      unfold Vitals.view in R. congruence.
    + assert (E : Vitals.view m s0 = Vitals.view m sa)
        by (rewrite (V m), (Va m), S; reflexivity).
      pose proof (run_view m es s0 sa E) as R.
      unfold Vitals.view in R. congruence.
Qed.



(** C7. On a host that accepts event entries, at every point of a session
    [worstInp] bounds the duration of every event entry delivered so far, and
    the [inp] field, once set, is the largest of these durations (it is one
    of them and none exceeds it); it is [null] exactly as long as no entry had
    a positive duration.  For the durations [120; 340; 90; 500; 200],
    however the host batches the entries, [inp] ends at [500], in exact
    arithmetic and in binary64. *)
Theorem C7_inp_is_the_largest_duration :
  forall supported : string -> bool,
    supported "event"%string = true ->
    (forall ds : list (Vitals.delivery Q),
        exists s,
          Vitals.session supported (map Vitals.Deliver ds) = Some s /\
          let durs :=
            map Vitals.duration (Vitals.interactions (map Vitals.Deliver ds)) in
          (forall d, In d durs -> d <= Vitals.worstInp s) /\
          (Vitals.inp (Vitals.vitals s) = None <->
           forall d, In d durs -> d <= 0) /\
          (forall v, Vitals.inp (Vitals.vitals s) = Some v ->
                     v = Vitals.worstInp s /\ In v durs /\
                     forall d, In d durs -> d <= v)) /\
    (forall ds : list (Vitals.delivery Q),
        Vitals.interactions (map Vitals.Deliver ds)
        = map Vitals.mkEventEntry [120; 340; 90; 500; 200] ->
        exists s,
          Vitals.session supported (map Vitals.Deliver ds) = Some s /\
          Vitals.inp (Vitals.vitals s) = Some 500) /\
    (forall ds : list (Vitals.delivery float),
        Vitals.interactions (map Vitals.Deliver ds)
        = map Vitals.mkEventEntry [120; 340; 90; 500; 200]%float ->
        exists s,
          Vitals.session supported (map Vitals.Deliver ds) = Some s /\
          Vitals.inp (Vitals.vitals s) = Some 500%float).
Proof.
  intros supported S. split; [|split].
  - intros ds.
    destruct (session_inp_view supported ds S) as [s [H V]].
    exists s. split; [exact H|]. cbv zeta.
    destruct (inp_loop_worst
                (Vitals.interactions (map Vitals.Deliver ds))
                (Vitals.set_observing Vitals.INP true Vitals.initial))
      as [U [P C]]; [reflexivity|reflexivity|].
    unfold Vitals.view in V; cbn [Vitals.field Vitals.acc] in V.
    injection V as V1 _ V3. rewrite <- V1, <- V3 in *.
    split; [exact U|]. split; [split|].
    + intros I d D. destruct C as [[_ W]|[C _]]; [|congruence].
      rewrite <- W. now apply U.
    + intros A. destruct C as [[C _]|[_ [C1 C2]]]; [exact C|].
      exfalso. exact (Qlt_not_le _ _ C2 (A _ C1)).
    + intros v I. destruct C as [[C _]|[C1 [C2 C3]]]; [congruence|].
      assert (v = Vitals.worstInp s) by congruence. subst v. auto.
  - intros ds E.
    destruct (session_inp_view supported ds S) as [s [H V]].
    exists s. split; [exact H|]. rewrite E in V.
    unfold Vitals.view in V; cbn [Vitals.field] in V.
    injection V as V1 _ _. rewrite V1. reflexivity.
  - intros ds E.
    destruct (session_inp_view supported ds S) as [s [H V]].
    exists s. split; [exact H|]. rewrite E in V.
    unfold Vitals.view in V; cbn [Vitals.field] in V.
    injection V as V1 _ _. rewrite V1. reflexivity.
Qed.

(** A host that accepts event entries only, and delivers the five
    interactions of the example in three lists. *)
Lemma C7_witness_event_only_host :
  String.eqb "event" "event" = true /\
  exists s,
    Vitals.session (String.eqb "event")
      (map Vitals.Deliver
         [Vitals.InpEntries (map Vitals.mkEventEntry [120; 340]);
          Vitals.InpEntries (map Vitals.mkEventEntry [90]);
          Vitals.InpEntries (map Vitals.mkEventEntry [500; 200])])
    = Some s /\
    Vitals.inp (Vitals.vitals s) = Some 500.
Proof.
  split; [reflexivity|].
  exact (proj1 (proj2 (C7_inp_is_the_largest_duration
                         (String.eqb "event") eq_refl))
           [Vitals.InpEntries (map Vitals.mkEventEntry [120; 340]);
            Vitals.InpEntries (map Vitals.mkEventEntry [90]);
            Vitals.InpEntries (map Vitals.mkEventEntry [500; 200])]
           eq_refl).
Defined.

(** ** The call interceptor *)

Section NetworkFacts.
Import Network.

Lemma fetch_fn_eqb_refl (f : fetch_fn) : fetch_fn_eqb f f = true.
Proof.
  induction f as [i|c f IH]; simpl.
  - apply Nat.eqb_refl.
  - now rewrite Nat.eqb_refl, IH.
Qed.

Lemma fetch_fn_eqb_eq (f g : fetch_fn) : fetch_fn_eqb f g = true <-> f = g.
Proof.
  split; [|intros ->; apply fetch_fn_eqb_refl].
  revert g. induction f as [i|c f IH]; intros [j|d g]; simpl;
    try discriminate.
  - intros E. apply Nat.eqb_eq in E. now subst.
  - intros E. apply andb_true_iff in E. destruct E as [E1 E2].
    apply Nat.eqb_eq in E1. apply IH in E2. now subst.
Qed.

(** A closure is not the function it captured. *)
Lemma wrapper_fresh (f : fetch_fn) : forall c, Wrapper c f <> f.
Proof.
  induction f as [i|d f IH]; intros c E; [discriminate|].
  injection E as _ E. exact (IH d E).
Qed.

(** [slice(0, 5)] of a history that was cut before. *)
Lemma firstn_cons_firstn {A : Type} (n : nat) (a : A) (l : list A) :
  firstn (S n) (a :: firstn (S n) l) = firstn (S n) (a :: l).
Proof.
  change (firstn (S n) (a :: firstn (S n) l))
    with (a :: firstn n (firstn (S n) l)).
  rewrite firstn_firstn. replace (Nat.min n (S n)) with n by lia.
  reflexivity.
Qed.

Lemma step_history_ok c w e : history_ok w -> history_ok (step c w e).
Proof.
  unfold history_ok. intros H. destruct e as [u t|n o t d|f|]; cbn [step].
  - destruct (fetch_fn_eqb _ _); exact H.
  - destruct (nth_error _ _); [|exact H].
    unfold wrapper_settle, setRequests.
    cbn [requests setRequests_calls]. rewrite H.
    apply (firstn_cons_firstn 4).
  - exact H.
  - exact H.
Qed.

Lemma run_history_ok c es : forall w, history_ok w -> history_ok (run c es w).
Proof.
  induction es as [|e es IH]; intros w H; [exact H|].
  cbn [run fold_left]. apply IH. now apply step_history_ok.
Qed.

(** One sequential exchange through the installed wrapper. *)
Lemma run_exchange c w x :
  window_fetch w = wrapper c -> in_flight w = [] ->
  run c (sequential [x]) w
  = mkWorld (window_fetch w) (next_closure w)
            (firstn 5 (record_of_exchange x :: requests w)) []
            (record_of_exchange x :: setRequests_calls w)
            (wrapper_outcome (x_outcome x) :: returned w).
Proof.
  intros F I. unfold sequential, run. cbn [flat_map app fold_left step].
  rewrite F, fetch_fn_eqb_refl. unfold wrapper_call.
  cbn [in_flight]. rewrite I. cbn [app nth_error].
  unfold wrapper_settle, setRequests, remove_nth, record_of_exchange.
  cbn. now rewrite F.
Qed.

Lemma run_sequential c xs : forall w,
  window_fetch w = wrapper c -> in_flight w = [] ->
  let w' := run c (sequential xs) w in
  window_fetch w' = wrapper c /\ in_flight w' = [] /\
  setRequests_calls w'
  = rev (map record_of_exchange xs) ++ setRequests_calls w /\
  returned w' = rev (map wrapper_outcome (map x_outcome xs)) ++ returned w.
Proof.
  induction xs as [|x xs IH]; intros w F I; [cbn; auto|].
  cbv zeta. change (sequential (x :: xs)) with (sequential [x] ++ sequential xs).
  unfold run. rewrite fold_left_app. fold (run c (sequential [x]) w).
  rewrite (run_exchange c w x F I).
  set (w1 := mkWorld _ _ _ _ _ _).
  destruct (IH w1 F eq_refl) as [F' [I' [S' R']]].
  fold (run c (sequential xs) w1).
  split; [exact F'|]. split; [exact I'|]. split.
  - rewrite S'. subst w1. cbn [setRequests_calls map rev].
    now rewrite <- app_assoc.
  - rewrite R'. subst w1. cbn [returned map rev].
    now rewrite <- app_assoc.
Qed.

End NetworkFacts.

Section NetworkSettle.
Import Network.

(** What the settling of the [n]-th invocation in flight does. *)
Lemma settle_step c w n k o now dateNow :
  nth_error (in_flight w) n = Some k ->
  step c w (Settle n o now dateNow)
  = mkWorld (window_fetch w) (next_closure w)
            (firstn 5 (record_of k o now dateNow :: requests w))
            (remove_nth n (in_flight w))
            (record_of k o now dateNow :: setRequests_calls w)
            (wrapper_outcome o :: returned w).
Proof. intros E. cbn [step]. rewrite E. reflexivity. Qed.

Lemma wrapper_outcome_id o : wrapper_outcome o = o.
Proof. destruct o; reflexivity. Qed.

Lemma Qmake_hundredths (n : Z) : n # 100 == inject_Z n * (1 # 100).
Proof. unfold Qeq; simpl. lia. Qed.

(** [parseFloat(x.toFixed(2))] is a whole number of hundredths, at most half
    a hundredth away from [x]. *)
Lemma toFixed2_rounds (x : Q) :
  Qabs x < inject_Z (10 ^ 21) ->
  exists n : Z,
    parseFloat_toFixed2 x = n # 100 /\
    Qabs (parseFloat_toFixed2 x - x) <= 1 # 200.
Proof.
  intros B. unfold parseFloat_toFixed2.
  destruct (Qle_bool (inject_Z (10 ^ 21)) (Qabs x)) eqn:Big.
  { apply Qle_bool_iff in Big. exfalso. exact (Qlt_not_le _ _ B Big). }
  destruct (Qle_bool 0 x) eqn:Sg.
  - set (n := Qfloor (x * 100 + (1 # 2))).
    exists n. split; [reflexivity|].
    pose proof (Qfloor_le (x * 100 + (1 # 2))) as L.
    pose proof (Qlt_floor (x * 100 + (1 # 2))) as U.
    fold n in L, U. rewrite inject_Z_plus in U.
    apply Qabs_Qle_condition. rewrite Qmake_hundredths.
    change (inject_Z 1) with 1 in U. split; lra.
  - set (m := Qfloor (- x * 100 + (1 # 2))).
    exists (- m)%Z. split; [reflexivity|].
    pose proof (Qfloor_le (- x * 100 + (1 # 2))) as L.
    pose proof (Qlt_floor (- x * 100 + (1 # 2))) as U.
    fold m in L, U. rewrite inject_Z_plus in U.
    apply Qabs_Qle_condition. rewrite Qmake_hundredths.
    change (inject_Z 1) with 1 in U. split; lra.
Qed.

End NetworkSettle.

(** C1. Whatever window.fetch holds before the effect runs, the effect
    installs a new closure, distinct from that function; and whatever
    happens while the interceptor is started (calls, settled calls, other
    code assigning window.fetch, earlier invocations of the stop handle),
    after the stop handle window.fetch is again the very function it held
    before the effect, and not the wrapper. *)
Theorem C1_stop_restores_the_captured_fetch :
  forall (w : Network.world) (es : list Network.event),
    let started := fst (Network.mount w) in
    let c := snd (Network.mount w) in
    let stopped := Network.cleanup c (Network.run c es started) in
    Network.window_fetch started = Network.wrapper c /\
    Network.wrapper c <> Network.window_fetch w /\
    Network.window_fetch stopped = Network.window_fetch w /\
    Network.window_fetch stopped <> Network.wrapper c.
Proof.
  intros w es. cbv zeta. cbn [Network.mount fst snd Network.cleanup
    Network.window_fetch Network.wrapper Network.originalFetch].
  pose proof (wrapper_fresh (Network.window_fetch w) (Network.next_closure w))
    as F.
  repeat split; auto.
Qed.

(** C2. When the call the wrapper awaits fails with [err], at a clock read
    not before the read at the start of the call, the wrapper hands
    [setRequests] one record, which becomes the head of the history, with
    status [0], a duration that is not negative and the url of the call; and
    its own promise rejects with the same [err].  In general the wrapper
    settles as the call it awaited did. *)
Theorem C2_failed_call_is_recorded_and_rethrown :
  forall (c : Network.effect) (w : Network.world) (n : nat) (k : Network.call)
         (err : error) (now : Q) (dateNow : Z),
    nth_error (Network.in_flight w) n = Some k ->
    Network.startTime k <= now ->
    let w' := Network.step c w (Network.Settle n (Network.Rejected err) now dateNow) in
    (exists r,
        Network.setRequests_calls w' = r :: Network.setRequests_calls w /\
        Network.requests w' = firstn 5 (r :: Network.requests w) /\
        hd_error (Network.requests w') = Some r /\
        Network.status r = 0%Z /\
        0 <= Network.duration r /\
        Network.url r = Network.call_url k) /\
    Network.returned w' = Network.Rejected err :: Network.returned w /\
    Network.window_fetch w' = Network.window_fetch w /\
    forall o now' dateNow',
      Network.returned
        (Network.step c w (Network.Settle n o now' dateNow'))
      = o :: Network.returned w.
Proof.
  intros c w n k err now dateNow I T. cbv zeta.
  rewrite (settle_step c w n k _ now dateNow I).
  cbn [Network.setRequests_calls Network.requests Network.returned
       Network.window_fetch Network.wrapper_outcome].
  split; [|split; [reflexivity|split; [reflexivity|]]].
  - eexists. split; [reflexivity|]. split; [reflexivity|].
    split; [reflexivity|]. cbn. split; [reflexivity|]. split; [lra|reflexivity].
  - intros o now' dateNow'. rewrite (settle_step c w n k o now' dateNow' I).
    cbn [Network.returned]. now rewrite wrapper_outcome_id.
Qed.

(** A call made through the installed wrapper at clock 10 that fails at
    clock 25. *)
Lemma C2_witness_failed_fetch :
  let c := snd (Network.mount (Network.initial (Network.Extern 0) 0)) in
  let w := Network.run c [Network.Call "/api/items" 10]
             (fst (Network.mount (Network.initial (Network.Extern 0) 0))) in
  let w' := Network.step c w
              (Network.Settle 0 (Network.Rejected (TypeError "Failed to fetch"))
                 25 1700000000000) in
  Network.startTime (Network.mkCall "/api/items" 10) <= 25 /\
  Network.requests w'
  = [Network.mkNetworkRequest "/api/items" 0 (25 - 10) 1700000000000] /\
  Network.returned w' = [Network.Rejected (TypeError "Failed to fetch")].
Proof.
  cbv zeta.
  assert (T : Network.startTime (Network.mkCall "/api/items" 10) <= 25)
    by (vm_compute; discriminate).
  split; [exact T|].
  destruct (C2_failed_call_is_recorded_and_rethrown
              (snd (Network.mount (Network.initial (Network.Extern 0) 0)))
              (Network.run
                 (snd (Network.mount (Network.initial (Network.Extern 0) 0)))
                 [Network.Call "/api/items" 10]
                 (fst (Network.mount (Network.initial (Network.Extern 0) 0))))
              0 (Network.mkCall "/api/items" 10)
              (TypeError "Failed to fetch") 25 1700000000000 eq_refl T)
    as [_ [R _]].
  split; [reflexivity|exact R].
Defined.

(** C3. From the effect on, whatever the events, the history [requests] is
    the five newest of the records handed to [setRequests], newest first, so
    it never has more than five.  After calls made one after the other it is
    the five last completed, newest first; after eight of them it is the
    records of the eighth down to the fourth, the three oldest gone. *)
Theorem C3_history_is_the_five_newest :
  forall (f : Network.fetch_fn) (n : nat),
    let started := fst (Network.mount (Network.initial f n)) in
    let c := snd (Network.mount (Network.initial f n)) in
    (forall es : list Network.event,
        let w := Network.run c es started in
        Network.requests w = firstn 5 (Network.setRequests_calls w) /\
        (length (Network.requests w) <= 5)%nat) /\
    (forall xs : list Network.exchange,
        Network.requests (Network.run c (Network.sequential xs) started)
        = firstn 5 (rev (map Network.record_of_exchange xs))) /\
    (forall x1 x2 x3 x4 x5 x6 x7 x8 : Network.exchange,
        Network.requests
          (Network.run c (Network.sequential [x1; x2; x3; x4; x5; x6; x7; x8])
             started)
        = map Network.record_of_exchange [x8; x7; x6; x5; x4]).
Proof.
  intros f n. cbv zeta.
  assert (H : forall es,
             Network.history_ok
               (Network.run (snd (Network.mount (Network.initial f n))) es
                  (fst (Network.mount (Network.initial f n)))))
    by (intros es; apply run_history_ok; reflexivity).
  assert (S : forall xs,
             Network.requests
               (Network.run (snd (Network.mount (Network.initial f n)))
                  (Network.sequential xs)
                  (fst (Network.mount (Network.initial f n))))
             = firstn 5 (rev (map Network.record_of_exchange xs))).
  { intros xs. rewrite (H (Network.sequential xs)).
    destruct (run_sequential (snd (Network.mount (Network.initial f n))) xs
                (fst (Network.mount (Network.initial f n)))
                eq_refl eq_refl) as [_ [_ [L _]]].
    rewrite L. cbn [Network.mount Network.initial fst
                    Network.setRequests_calls].
    now rewrite app_nil_r. }
  split; [|split].
  - intros es. split; [apply H|]. rewrite (H es). apply firstn_le_length.
  - exact S.
  - intros x1 x2 x3 x4 x5 x6 x7 x8. rewrite S. reflexivity.
Qed.

(** C10. When the call the wrapper awaits succeeds, the duration of the
    record is [parseFloat(elapsed.toFixed(2))]: a whole number of hundredths
    of a millisecond, at most half a hundredth away from the elapsed time.
    When it fails, the duration is the elapsed time itself.  The two differ as
    soon as the elapsed time has more than two decimals. *)
Theorem C10_duration_is_rounded_on_success_only :
  forall (c : Network.effect) (w : Network.world) (n : nat) (k : Network.call)
         (now : Q) (dateNow : Z),
    nth_error (Network.in_flight w) n = Some k ->
    Qabs (now - Network.startTime k) < inject_Z (10 ^ 21) ->
    let elapsed := now - Network.startTime k in
    (forall response, exists r hundredths,
        hd_error
          (Network.requests
             (Network.step c w
                (Network.Settle n (Network.Fulfilled response) now dateNow)))
        = Some r /\
        Network.duration r = Network.parseFloat_toFixed2 elapsed /\
        Network.duration r = hundredths # 100 /\
        Qabs (Network.duration r - elapsed) <= 1 # 200) /\
    (forall err, exists r,
        hd_error
          (Network.requests
             (Network.step c w
                (Network.Settle n (Network.Rejected err) now dateNow)))
        = Some r /\
        Network.duration r = elapsed) /\
    (exists x, ~ Network.parseFloat_toFixed2 x == x).
Proof.
  intros c w n k now dateNow I B. cbv zeta. split; [|split].
  - intros response.
    destruct (toFixed2_rounds _ B) as [h [E A]].
    rewrite (settle_step c w n k _ now dateNow I).
    eexists; exists h. cbn [Network.requests firstn hd_error].
    split; [reflexivity|]. cbn [Network.record_of Network.duration].
    split; [reflexivity|]. split; assumption.
  - intros err. rewrite (settle_step c w n k _ now dateNow I).
    eexists. cbn [Network.requests firstn hd_error].
    split; reflexivity.
  - exists (1234567 # 100000). vm_compute. discriminate.
Qed.

(** A call made at clock 10 that settles at clock 22.34567: the record of a
    success has the duration 12.35, the record of a failure 12.34567. *)
Lemma C10_witness_twelve_milliseconds :
  let c := snd (Network.mount (Network.initial (Network.Extern 0) 0)) in
  let w := Network.run c [Network.Call "/api/items" 10]
             (fst (Network.mount (Network.initial (Network.Extern 0) 0))) in
  Qabs (22.34567 - Network.startTime (Network.mkCall "/api/items" 10))
  < inject_Z (10 ^ 21) /\
  (exists r,
      hd_error
        (Network.requests
           (Network.step c w
              (Network.Settle 0 (Network.Fulfilled (Network.mkResponse 1 200))
                 22.34567 1700000000000)))
      = Some r /\ Network.duration r = 12.35) /\
  (exists r,
      hd_error
        (Network.requests
           (Network.step c w
              (Network.Settle 0 (Network.Rejected (TypeError "Failed to fetch"))
                 22.34567 1700000000000)))
      = Some r /\ Network.duration r == 12.34567).
Proof.
  cbv zeta.
  assert (B : Qabs (22.34567 - Network.startTime (Network.mkCall "/api/items" 10))
              < inject_Z (10 ^ 21)) by (vm_compute; reflexivity).
  split; [exact B|].
  destruct (C10_duration_is_rounded_on_success_only
              (snd (Network.mount (Network.initial (Network.Extern 0) 0)))
              (Network.run
                 (snd (Network.mount (Network.initial (Network.Extern 0) 0)))
                 [Network.Call "/api/items" 10]
                 (fst (Network.mount (Network.initial (Network.Extern 0) 0))))
              0 (Network.mkCall "/api/items" 10) 22.34567 1700000000000
              eq_refl B) as [S [F _]].
  split.
  - destruct (S (Network.mkResponse 1 200)) as [r [h [H [D _]]]].
    exists r. split; [exact H|]. rewrite D. vm_compute. reflexivity.
  - destruct (F (TypeError "Failed to fetch")) as [r [H D]].
    exists r. split; [exact H|]. rewrite D. vm_compute. reflexivity.
Defined.

(** ** Stop handles *)

Section StopFacts.

(** The frame-rate sampler never has a request queued that
    [animationFrameId] does not name. *)
Lemma fps_step_queued (s : Fps.state) (e : Fps.event) :
  Fps.queued s \/ Fps.scheduled s = None ->
  Fps.queued (Fps.step s e) \/ Fps.scheduled (Fps.step s e) = None.
Proof.
  intros [Q|U]; destruct e as [now|]; cbn [Fps.step].
  - rewrite Q. left. apply loop_queued.
  - right. now apply cleanup_unscheduled.
  - rewrite U. now right.
  - right. unfold Fps.cleanup. now rewrite U.
Qed.

Lemma fps_run_queued es : forall s,
  Fps.queued s \/ Fps.scheduled s = None ->
  Fps.queued (Fps.run es s) \/ Fps.scheduled (Fps.run es s) = None.
Proof.
  induction es as [|e es IH]; intros s H; [exact H|].
  cbn [Fps.run fold_left]. apply IH. now apply fps_step_queued.
Qed.

Lemma fps_cleanup_twice (s : Fps.state) :
  Fps.cleanup (Fps.cleanup s) = Fps.cleanup s.
Proof.
  unfold Fps.cleanup at 2 3. destruct (Fps.scheduled s) as [h|] eqn:E.
  - destruct (Nat.eqb h (Fps.animationFrameId s)) eqn:B.
    + reflexivity.
    + unfold Fps.cleanup. now rewrite E, B.
  - unfold Fps.cleanup. now rewrite E.
Qed.

Lemma memory_cleanup_twice (s : Memory.state) :
  Memory.cleanup (Memory.cleanup s) = Memory.cleanup s.
Proof. reflexivity. Qed.

Lemma vitals_cleanup_twice {num : Type} {N : Number num}
  (s : Vitals.state num) :
  Vitals.cleanup (Vitals.cleanup s) = Vitals.cleanup s.
Proof. reflexivity. Qed.

(** With no observer attached no event changes the state. *)
Lemma vitals_run_stopped {num : Type} {N : Number num} es :
  forall s : Vitals.state num,
    Vitals.run es (Vitals.cleanup s) = Vitals.cleanup s.
Proof.
  induction es as [|e es IH]; intros s; [reflexivity|].
  cbn [Vitals.run fold_left].
  replace (Vitals.step (Vitals.cleanup s) e) with (Vitals.cleanup s);
    [apply IH|].
  destruct e as [d|]; [|reflexivity].
  destruct d; reflexivity.
Qed.

Lemma network_cleanup_twice c w :
  Network.cleanup c (Network.cleanup c w) = Network.cleanup c w.
Proof. reflexivity. Qed.

(** Once [window.fetch] is the captured function again and nothing is in
    flight, calls, settlements and stops leave the records alone. *)
Lemma network_run_quiet (c : Network.effect) es : forall w,
  (exists i, Network.wrapper c = Network.Wrapper i (Network.originalFetch c)) ->
  Network.window_fetch w = Network.originalFetch c ->
  Network.in_flight w = [] ->
  Forall (fun e => Network.is_assign e = false) es ->
  Network.setRequests_calls (Network.run c es w) = Network.setRequests_calls w.
Proof.
  induction es as [|e es IH]; intros w W F I A; [reflexivity|].
  inversion A as [|? ? Ae Aes]; subst.
  cbn [Network.run fold_left].
  assert (S : Network.step c w e = w \/
              Network.step c w e = Network.cleanup c w).
  { destruct e as [u t|n o t d|f|]; cbn [Network.step].
    - left. rewrite F. destruct W as [i W]. rewrite W.
      destruct (Network.fetch_fn_eqb _ _) eqn:B; [|reflexivity].
      apply fetch_fn_eqb_eq in B. symmetry in B.
      exfalso. exact (wrapper_fresh _ _ B).
    - left. rewrite I. destruct n; reflexivity.
    - discriminate Ae.
    - now right. }
  destruct S as [-> | ->].
  - now apply IH.
  - fold (Network.run c es (Network.cleanup c w)).
    rewrite IH; auto.
Qed.

(** The package keeps the five callbacks whatever happens. *)
Lemma package_run_registered es : forall s,
  VitalsPackage.registered s
  = [VitalsPackage.LCP; VitalsPackage.FCP; VitalsPackage.CLS;
     VitalsPackage.INP; VitalsPackage.TTFB] ->
  VitalsPackage.registered (VitalsPackage.run es s)
  = [VitalsPackage.LCP; VitalsPackage.FCP; VitalsPackage.CLS;
     VitalsPackage.INP; VitalsPackage.TTFB].
Proof.
  induction es as [|e es IH]; intros s R; [exact R|].
  cbn [VitalsPackage.run fold_left]. apply IH.
  destruct e as [m v|]; cbn [VitalsPackage.step VitalsPackage.cleanup];
    [|exact R].
  destruct (existsb _ _); exact R.
Qed.

End StopFacts.

(** C9, as stated, fails for the call interceptor: a call made through the
    wrapper before the stop handle ran, and settled after it, still hands a
    record to [setRequests]. *)
Lemma C9_counterexample_call_in_flight_at_stop :
  let c := snd (Network.mount (Network.initial (Network.Extern 0) 0)) in
  let stopped :=
    Network.run c [Network.Call "/api/items" 10; Network.Stop]
      (fst (Network.mount (Network.initial (Network.Extern 0) 0))) in
  ~ (Network.setRequests_calls
       (Network.run c
          [Network.Settle 0 (Network.Fulfilled (Network.mkResponse 1 200))
             25 1700000000000] stopped)
     = Network.setRequests_calls stopped).
Proof. cbv zeta. vm_compute. discriminate. Qed.

(** C9, amended. The stop handle of every collector is a closure of calls
    that cannot throw, and running it a second time changes nothing.  After
    the stop handle of the frame-rate sampler, of the heap sampler and of the
    vitals observer on [PerformanceObserver], no event of the host changes
    the state of the collector or makes it call its setter.  The vitals
    observer on the [web-vitals] package has no stop handle: unmounting it
    changes nothing, and every metric the package reports afterwards still
    calls [setVitals] and is stored.  After the stop handle of the call
    interceptor, if no call was in flight and no one assigns window.fetch
    again, no call is recorded. *)
Theorem C9_stop_is_idempotent_and_final :
  (forall (t0 t1 : Q) (before after : list Fps.event),
      let s := Fps.run before (Fps.mount t0 t1) in
      Fps.cleanup (Fps.cleanup s) = Fps.cleanup s /\
      Fps.run after (Fps.cleanup s) = Fps.cleanup s) /\
  (forall (s : Memory.state) (after : list Memory.event),
      Memory.cleanup (Memory.cleanup s) = Memory.cleanup s /\
      Memory.run after (Memory.cleanup s) = Memory.cleanup s) /\
  (forall (num : Type) (N : Number num) (s : Vitals.state num)
          (after : list (Vitals.event num)),
      Vitals.cleanup (Vitals.cleanup s) = Vitals.cleanup s /\
      Vitals.run after (Vitals.cleanup s) = Vitals.cleanup s) /\
  (forall (f : Network.fetch_fn) (n : nat)
          (before after : list Network.event),
      let c := snd (Network.mount (Network.initial f n)) in
      let w := Network.run c before (fst (Network.mount (Network.initial f n))) in
      Network.cleanup c (Network.cleanup c w) = Network.cleanup c w /\
      (Network.in_flight w = [] ->
       Forall (fun e => Network.is_assign e = false) after ->
       Network.setRequests_calls (Network.run c after (Network.cleanup c w))
       = Network.setRequests_calls w)) /\
  (forall (before : list VitalsPackage.event) (m : VitalsPackage.metric)
          (value : Q),
      let s := VitalsPackage.run before VitalsPackage.mount in
      VitalsPackage.run [VitalsPackage.Stop] s = s /\
      VitalsPackage.setVitals_calls
        (VitalsPackage.run [VitalsPackage.Stop; VitalsPackage.Report m value] s)
      = S (VitalsPackage.setVitals_calls s) /\
      VitalsPackage.field m
        (VitalsPackage.vitals
           (VitalsPackage.run
              [VitalsPackage.Stop; VitalsPackage.Report m value] s))
      = Some value).
Proof.
  split; [|split; [|split; [|split]]].
  - intros t0 t1 before after. cbv zeta. split; [apply fps_cleanup_twice|].
    apply run_unscheduled.
    destruct (fps_run_queued before (Fps.mount t0 t1)
                (or_introl (loop_queued _ _))) as [Q|U].
    + now apply cleanup_unscheduled.
    + unfold Fps.cleanup. now rewrite U.
  - intros s after. split; [reflexivity|].
    now apply memory_run_stopped.
  - intros num N s after. split; [reflexivity|]. apply vitals_run_stopped.
  - intros f n before after. cbv zeta. split; [reflexivity|].
    intros I A.
    rewrite network_run_quiet; auto.
    exists n. reflexivity.
  - intros before m value. cbv zeta.
    pose proof (package_run_registered before VitalsPackage.mount eq_refl)
      as R.
    set (s := VitalsPackage.run before VitalsPackage.mount) in *.
    split; [reflexivity|].
    change (VitalsPackage.run [VitalsPackage.Stop; VitalsPackage.Report m value] s)
      with (VitalsPackage.step s (VitalsPackage.Report m value)).
    cbn [VitalsPackage.step]. rewrite R.
    destruct m; split; reflexivity.
Qed.

(** One call completed before the stop handle, one made after it. *)
Lemma C9_witness_call_after_stop_is_not_recorded :
  let c := snd (Network.mount (Network.initial (Network.Extern 0) 0)) in
  let before :=
    Network.sequential
      [Network.mkExchange "/api/items" 10
         (Network.Fulfilled (Network.mkResponse 1 200)) 25 1700000000000] in
  let after :=
    Network.sequential
      [Network.mkExchange "/api/users" 40
         (Network.Fulfilled (Network.mkResponse 2 200)) 55 1700000000030] in
  let w := Network.run c before
             (fst (Network.mount (Network.initial (Network.Extern 0) 0))) in
  Network.in_flight w = [] /\
  Forall (fun e => Network.is_assign e = false) after /\
  Network.setRequests_calls (Network.run c after (Network.cleanup c w))
  = [Network.mkNetworkRequest "/api/items" 200 (1500 # 100) 1700000000000].
Proof.
  cbv zeta. split; [reflexivity|].
  assert (A : Forall (fun e => Network.is_assign e = false)
                (Network.sequential
                   [Network.mkExchange "/api/users" 40
                      (Network.Fulfilled (Network.mkResponse 2 200)) 55
                      1700000000030]))
    by (repeat constructor).
  split; [exact A|].
  destruct C9_stop_is_idempotent_and_final as [_ [_ [_ [Net _]]]].
  destruct (Net (Network.Extern 0) 0%nat
              (Network.sequential
                 [Network.mkExchange "/api/items" 10
                    (Network.Fulfilled (Network.mkResponse 1 200)) 25
                    1700000000000])
              (Network.sequential
                 [Network.mkExchange "/api/users" 40
                    (Network.Fulfilled (Network.mkResponse 2 200)) 55
                    1700000000030])) as [_ Quiet].
  rewrite (Quiet eq_refl A). reflexivity.
Defined.

(** ** Runs on concrete inputs *)

(** Five invocations of [loop] (the synchronous one at 0): the window that
    closes at 1000 counts three of them, the one that closes at 2100 two; the
    frame after the stop handle is not seen. *)
Example fps_two_windows :
  Fps.setFps_calls
    (Fps.run (map Fps.Frame [500; 1000; 1500; 2100]
              ++ [Fps.Stop; Fps.Frame 5000])
       (Fps.mount 0 0))
  = [3; 2]%Z.
Proof. vm_compute. reflexivity. Qed.

(** Sixty frames a second, timed 16.7 ms apart: the sixtieth frame closes the
    window at 1002 ms with 61 invocations counted, and [round (61000 / 1002)]
    is 61. *)
Example fps_sixty_frames :
  Fps.setFps_calls
    (Fps.run (map (fun i => Fps.Frame (inject_Z (Z.of_nat i) * 16.7))
                  (seq 1 60))
       (Fps.mount 0 0))
  = [61%Z].
Proof. vm_compute. reflexivity. Qed.

(** Three ticks, the second on a host state without [performance.memory]:
    two samples, 50 MB used of 2048 MB and 64 MB used of 2048 MB. *)
Example memory_three_ticks :
  map (option_map (fun s => (Qred (Memory.used s), Qred (Memory.limit s))))
    (Memory.setMemory_calls
       (Memory.run
          [Memory.Tick (Some (Memory.mkMemoryInfo 52428800 2147483648));
           Memory.Tick None;
           Memory.Tick (Some (Memory.mkMemoryInfo 67108864 2147483648))]
          (Memory.mount 1)))
  = [Some (50, 2048); Some (64, 2048)].
Proof. vm_compute. reflexivity. Qed.

(** [renderTime || loadTime || 0]: a cross-origin image reports a render time
    of [0], so its load time is taken. *)
Example lcp_falls_back_to_loadTime :
  option_map (fun s => Vitals.lcp (Vitals.vitals s))
    (Vitals.session (fun _ => true)
       [Vitals.Deliver
          (Vitals.LcpEntries [Vitals.mkLCPEntry 812.5 800;
                              Vitals.mkLCPEntry 0 1340.2])])
  = Some (Some 1340.2).
Proof. vm_compute. reflexivity. Qed.

(** On a host that rejects [event] and [first-input], the console gets the
    two warnings and the other two observers are attached. *)
Example vitals_partial_host :
  option_map
    (fun s : Vitals.state Q =>
       (Vitals.console s,
        map (fun m => Vitals.observing m s)
            [Vitals.LCP; Vitals.CLS; Vitals.FID; Vitals.INP]))
    (Vitals.session
       (fun t => String.eqb t "largest-contentful-paint"
                 || String.eqb t "layout-shift") [])
  = Some (["FID not supported"%string;
           "INP not supported, using FID as fallback"%string],
          [true; true; false; false]).
Proof. vm_compute. reflexivity. Qed.

(** Two calls in flight at once settle in the other order: the history has
    the record of the call that settled last first. *)
Example network_completion_order :
  let c := snd (Network.mount (Network.initial (Network.Extern 0) 0)) in
  map Network.url
    (Network.requests
       (Network.run c
          [Network.Call "/slow" 0; Network.Call "/fast" 1;
           Network.Settle 1 (Network.Fulfilled (Network.mkResponse 1 200))
             20 1700000000020;
           Network.Settle 0 (Network.Rejected (HostError 1))
             950 1700000000950]
          (fst (Network.mount (Network.initial (Network.Extern 0) 0)))))
  = ["/slow"%string; "/fast"%string].
Proof. vm_compute. reflexivity. Qed.

(** * Further properties of the code *)

(** ** The frame-rate sampler: what the rates add up to *)

Section FpsBounds.

Lemma Zsum_app l1 l2 : Zsum (l1 ++ l2) = (Zsum l1 + Zsum l2)%Z.
Proof. induction l1 as [|a l IH]; simpl; [reflexivity|]. rewrite IH. lia. Qed.

Lemma Qfloor_half (c : Z) : Qfloor (inject_Z c + (1 # 2)) = c.
Proof.
  pose proof (Qfloor_le (inject_Z c + (1 # 2))) as L.
  pose proof (Qlt_floor (inject_Z c + (1 # 2))) as U.
  set (f := Qfloor (inject_Z c + (1 # 2))) in *.
  destruct (Z.lt_trichotomy f c) as [H|[H|H]]; [exfalso|exact H|exfalso].
  - assert (f + 1 <= c)%Z as H' by lia. rewrite Zle_Qle in H'. lra.
  - assert (c + 1 <= f)%Z as H' by lia. rewrite Zle_Qle in H'.
    rewrite inject_Z_plus in H'. change (inject_Z 1) with 1 in H'. lra.
Qed.

(** A rate is not negative and not above the count it is computed from. *)
Lemma rate_bounds (c : Z) (elapsed : Q) :
  (0 <= c)%Z -> 1000 <= elapsed ->
  (0 <= Math_round (inject_Z (c * 1000) / elapsed) <= c)%Z.
Proof.
  intros C E. unfold Math_round.
  assert (P : 0 < elapsed) by lra.
  assert (C' : 0 <= inject_Z c) by (rewrite Zle_Qle in C; exact C).
  assert (L : 0 <= inject_Z (c * 1000) / elapsed).
  { apply Qle_shift_div_l; [exact P|]. rewrite inject_Z_mult.
    change (inject_Z 1000) with 1000. lra. }
  assert (U : inject_Z (c * 1000) / elapsed <= inject_Z c).
  { apply Qle_shift_div_r; [exact P|]. rewrite inject_Z_mult.
    change (inject_Z 1000) with 1000. nra. }
  split.
  - change 0%Z with (Qfloor 0). apply Qfloor_resp_le. lra.
  - rewrite <- (Qfloor_half c) at 2. apply Qfloor_resp_le. lra.
Qed.

Lemma loop_accounted k now s :
  accounted k s -> accounted (k + 1) (Fps.loop now s).
Proof.
  intros [C [F S]]. unfold accounted, Fps.loop.
  destruct (geb (now - Fps.lastTime s) 1000) eqn:G; simpl.
  - apply geb_true in G.
    destruct (rate_bounds (Fps.frameCount s + 1) (now - Fps.lastTime s))
      as [R0 R1]; [lia|exact G|].
    split; [lia|]. split.
    + apply Forall_app. split; [exact F|]. constructor; [exact R0|constructor].
    + rewrite Zsum_app. simpl. lia.
  - split; [lia|]. split; [exact F|lia].
Qed.

Lemma step_accounted k s e :
  accounted k s -> accounted (k + 1) (Fps.step s e).
Proof.
  intros A.
  assert (W : accounted (k + 1) s)
    by (destruct A as [C [F S]]; repeat split; auto; lia).
  destruct e as [now|]; cbn [Fps.step].
  - destruct (Fps.scheduled s); [|exact W].
    apply loop_accounted. exact A.
  - unfold Fps.cleanup. destruct (Fps.scheduled s); [|exact W].
    destruct (Nat.eqb _ _); exact W.
Qed.

Lemma run_accounted es : forall k s,
  accounted k s -> accounted (k + Z.of_nat (length es)) (Fps.run es s).
Proof.
  induction es as [|e es IH]; intros k s A.
  - simpl. now rewrite Z.add_0_r.
  - cbn [Fps.run fold_left length].
    replace (k + Z.of_nat (S (length es)))%Z
      with (k + 1 + Z.of_nat (length es))%Z by lia.
    apply IH. now apply step_accounted.
Qed.

End FpsBounds.

(** X1. In every session of the frame-rate sampler, whatever the clock
    reads, no reported rate is negative, and the reported rates add up to at
    most the number of times the loop can have run: the synchronous first
    call and one run for each event of the host. *)
Theorem X1_fps_reports_no_more_than_it_saw :
  forall (t0 t1 : Q) (es : list Fps.event),
    let s := Fps.run es (Fps.mount t0 t1) in
    Forall (fun r => (0 <= r)%Z) (Fps.setFps_calls s) /\
    (Zsum (Fps.setFps_calls s) <= 1 + Z.of_nat (length es))%Z.
Proof.
  intros t0 t1 es. cbv zeta.
  assert (A0 : accounted 0 (Fps.mkState 0 t0 0 None 0 0 []))
    by (repeat split; simpl; try constructor; lia).
  pose proof (run_accounted es _ _ (loop_accounted 0 t1 _ A0)) as [C [F S]].
  split; [exact F|]. fold (Fps.mount t0 t1) in S, C. lia.
Qed.

(** ** The heap sampler and its bar *)

Section MemoryBar.

Lemma sample_of_tick (m : Memory.MemoryInfo) (s : Memory.state) :
  Memory.timer_active s = true ->
  Memory.memory (Memory.step s (Memory.Tick (Some m)))
  = Some (Memory.mkSample (Memory.usedJSHeapSize m / 1024 / 1024)
                          (Memory.jsHeapSizeLimit m / 1024 / 1024)).
Proof. intros A. cbn [Memory.step]. rewrite A. reflexivity. Qed.

Lemma Qdiv_le_compat_r (a b c : Q) : 0 < c -> a <= b -> a / c <= b / c.
Proof.
  intros C H. apply Qle_shift_div_l; [exact C|].
  unfold Qdiv. rewrite <- Qmult_assoc, (Qmult_comm (/ c)), Qmult_inv_r; lra.
Qed.

End MemoryBar.

(** X2. When the host reports a heap use that is not negative and not above
    the limit, so is every sample the heap sampler emits, and so is the value
    of the hook at every point of the session: the conversion to megabytes
    keeps the order of the two numbers. *)
Theorem X2_heap_sample_keeps_used_below_limit :
  forall (h : nat) (pms : list (option Memory.MemoryInfo)),
    Forall (fun pm => match pm with
                      | Some m => 0 <= Memory.usedJSHeapSize m
                                  /\ Memory.usedJSHeapSize m
                                     <= Memory.jsHeapSizeLimit m
                      | None => True
                      end) pms ->
    let s := Memory.run (map Memory.Tick pms) (Memory.mount h) in
    Forall (fun v => match v with
                     | Some smp => 0 <= Memory.used smp
                                   /\ Memory.used smp <= Memory.limit smp
                     | None => False
                     end) (Memory.setMemory_calls s) /\
    match Memory.memory s with
    | Some smp => 0 <= Memory.used smp /\ Memory.used smp <= Memory.limit smp
    | None => Memory.setMemory_calls s = []
    end.
Proof.
  intros h pms H. cbv zeta.
  destruct (memory_run_ticks pms (Memory.mount h) eq_refl) as [_ E].
  cbn [Memory.mount Memory.setMemory_calls app] in E.
  assert (F : Forall (fun v => match v with
                     | Some smp => 0 <= Memory.used smp
                                   /\ Memory.used smp <= Memory.limit smp
                     | None => False
                     end)
                (Memory.setMemory_calls
                   (Memory.run (map Memory.Tick pms) (Memory.mount h)))).
  { rewrite E. clear E. induction H as [|pm pms Hpm _ IH]; cbn [flat_map].
    - constructor.
    - destruct pm as [m|]; [|exact IH]. cbn [app]. constructor; [|exact IH].
      destruct Hpm as [H0 H1]. cbn [Memory.used Memory.limit]. split.
      + apply Qle_shift_div_l; [lra|]. apply Qle_shift_div_l; lra.
      + apply Qdiv_le_compat_r; [lra|]. apply Qdiv_le_compat_r; [lra|exact H1].
  }
  split; [exact F|].
  rewrite (memory_run_last (map Memory.Tick pms) (Memory.mount h) eq_refl).
  destruct (Memory.setMemory_calls
              (Memory.run (map Memory.Tick pms) (Memory.mount h)))
    as [|v l] using rev_ind; [reflexivity|].
  rewrite last_last. apply Forall_app in F. destruct F as [_ F].
  inversion F as [|? ? Fv _]; subst. destruct v; [exact Fv|contradiction].
Qed.

(** A host that reports 50 MB used of 2048 MB, then loses the capability
    for a tick. *)
Lemma X2_witness_two_ticks :
  Forall (fun pm => match pm with
                    | Some m => 0 <= Memory.usedJSHeapSize m
                                /\ Memory.usedJSHeapSize m
                                   <= Memory.jsHeapSizeLimit m
                    | None => True
                    end)
    [Some (Memory.mkMemoryInfo 52428800 2147483648); None] /\
  match Memory.memory
          (Memory.run
             (map Memory.Tick
                [Some (Memory.mkMemoryInfo 52428800 2147483648); None])
             (Memory.mount 1)) with
  | Some smp => 0 <= Memory.used smp /\ Memory.used smp <= Memory.limit smp
  | None => False
  end.
Proof.
  assert (H : Forall (fun pm => match pm with
                    | Some m => 0 <= Memory.usedJSHeapSize m
                                /\ Memory.usedJSHeapSize m
                                   <= Memory.jsHeapSizeLimit m
                    | None => True
                    end)
                [Some (Memory.mkMemoryInfo 52428800 2147483648); None]).
  { repeat constructor; simpl; vm_compute; discriminate. }
  split; [exact H|].
  exact (proj2 (X2_heap_sample_keeps_used_below_limit 1 _ H)).
Defined.

(** X3. For a sample taken from byte counts with a positive limit, the bar
    of the memory section is as wide, in percent, as the share of the limit
    in use, the division by [1024 * 1024] cancelling out, but never wider
    than 100; and it is red exactly when more than 80 percent of the limit
    is in use. *)
Theorem X3_memory_bar_shows_share_of_limit :
  forall (m : Memory.MemoryInfo) (s : Memory.state),
    Memory.timer_active s = true ->
    0 < Memory.jsHeapSizeLimit m ->
    exists b,
      Dashboard.memory_bar
        (Memory.memory (Memory.step s (Memory.Tick (Some m)))) = Some b /\
      Dashboard.width_percent b
      == Qmin (Memory.usedJSHeapSize m / Memory.jsHeapSizeLimit m * 100) 100 /\
      Dashboard.width_percent b <= 100 /\
      (Dashboard.backgroundColor b = "#ff0000"%string <->
       80 * Memory.jsHeapSizeLimit m < 100 * Memory.usedJSHeapSize m) /\
      (Dashboard.backgroundColor b = "#00ff41"%string <->
       100 * Memory.usedJSHeapSize m <= 80 * Memory.jsHeapSizeLimit m).
Proof.
  intros m s A L. rewrite (sample_of_tick m s A).
  eexists. split; [reflexivity|].
  cbn [Dashboard.barFill Dashboard.width_percent Dashboard.backgroundColor
       Memory.used Memory.limit].
  set (u := Memory.usedJSHeapSize m) in *.
  set (l := Memory.jsHeapSizeLimit m) in *.
  assert (E : u / 1024 / 1024 / (l / 1024 / 1024) * 100 == u / l * 100)
    by (field; lra).
  assert (P : 80 < u / l * 100 <-> 80 * l < 100 * u).
  { assert (R : u == u / l * l) by (field; lra).
    set (r := u / l) in *. split; intros H.
    - rewrite R. nra.
    - rewrite R in H. apply Qnot_le_lt. intros C. nra. }
  split; [now rewrite E|]. split; [apply Q.le_min_r|].
  destruct (gtb (u / 1024 / 1024 / (l / 1024 / 1024) * 100) 80) eqn:G.
  - apply gtb_true in G. rewrite E in G. apply P in G.
    split; split; intros H; try reflexivity; try exact G.
    + discriminate H.
    + lra.
  - apply gtb_false in G. rewrite E in G.
    assert (G' : 100 * u <= 80 * l).
    { apply Qnot_lt_le. intros H. apply P in H. lra. }
    split; split; intros H; try reflexivity; try exact G'.
    + discriminate H.
    + lra.
Qed.

(** 1.8 GB in use of 2 GB. *)
Lemma X3_witness_heap_nearly_full :
  Memory.timer_active (Memory.mount 1) = true /\
  0 < Memory.jsHeapSizeLimit (Memory.mkMemoryInfo 1932735283 2147483648) /\
  exists b,
    Dashboard.memory_bar
      (Memory.memory
         (Memory.step (Memory.mount 1)
            (Memory.Tick (Some (Memory.mkMemoryInfo 1932735283 2147483648)))))
    = Some b /\
    Dashboard.backgroundColor b = "#ff0000"%string.
Proof.
  split; [reflexivity|].
  assert (L : 0 < Memory.jsHeapSizeLimit
                    (Memory.mkMemoryInfo 1932735283 2147483648))
    by reflexivity.
  split; [exact L|].
  destruct (X3_memory_bar_shows_share_of_limit
              (Memory.mkMemoryInfo 1932735283 2147483648) (Memory.mount 1)
              eq_refl L) as [b [B [_ [_ [R _]]]]].
  exists b. split; [exact B|]. apply R. reflexivity.
Defined.

(** ** The vitals observer: what the fields hold *)

Section VitalsFields.
Import Vitals VitalsReadings.
Context {num : Type} {N : Number num}.

Lemma cls_entry_keeps (m : metric) (s : state num) entry :
  is_some (field m (vitals s)) = true ->
  is_some (field m (vitals (cls_entry s entry))) = true.
Proof.
  unfold cls_entry. destruct (negb _); [|auto].
  destruct m; cbn; auto.
Qed.

Lemma inp_entry_keeps (m : metric) (s : state num) entry :
  is_some (field m (vitals s)) = true ->
  is_some (field m (vitals (inp_entry s entry))) = true.
Proof.
  unfold inp_entry. destruct (_ && _); [|auto].
  destruct m; cbn; auto.
Qed.

Lemma callback_keeps (d : delivery num) (m : metric) (s s' : state num) :
  callback d s = Normal s' ->
  is_some (field m (vitals s)) = true ->
  is_some (field m (vitals s')) = true.
Proof.
  destruct d as [l|l|l|l]; cbn [callback].
  - unfold lcp_callback. destruct (rev l); [discriminate|].
    intros [= <-]. destruct m; cbn; auto.
  - unfold cls_callback. intros [= <-]. revert s.
    induction l as [|e l IH]; intros s H; [exact H|].
    cbn [fold_left]. apply IH. now apply cls_entry_keeps.
  - unfold fid_callback. destruct l; intros [= <-]; [auto|].
    destruct m; cbn; auto.
  - unfold inp_callback. intros [= <-]. revert s.
    induction l as [|e l IH]; intros s H; [exact H|].
    cbn [fold_left]. apply IH. now apply inp_entry_keeps.
Qed.

Lemma step_keeps (m : metric) (e : event num) (s : state num) :
  is_some (field m (vitals s)) = true ->
  is_some (field m (vitals (step s e))) = true.
Proof.
  intros H. destruct e as [d|]; cbn [step].
  - destruct (observing (metric_of d) s); [|exact H].
    destruct (callback d s) eqn:C; [|exact H].
    now apply (callback_keeps d m s).
  - destruct m; exact H.
Qed.

Lemma last_of_app {A : Type} (l1 l2 : list A) :
  last_of (l1 ++ l2)
  = match last_of l2 with
    | Some a => Some a
    | None => last_of l1
    end.
Proof.
  unfold last_of. rewrite rev_app_distr.
  destruct (rev l2); reflexivity.
Qed.

Lemma deliver_other_field (m : metric) (d : delivery num) (s : state num) :
  metric_of d <> m ->
  field m (vitals (step s (Deliver d))) = field m (vitals s).
Proof.
  intros D. cbn [step]. destruct (observing (metric_of d) s); [|reflexivity].
  destruct (callback d s) eqn:C; [|reflexivity].
  pose proof (callback_frame d m s _ D C) as V. unfold view in V. congruence.
Qed.

Lemma run_lcp ds : forall s : state num,
  lcpObserving s = true ->
  lcp (vitals (run (map Deliver ds) s))
  = match last_of (paints ds) with
    | Some entry => Some (lcp_value entry)
    | None => lcp (vitals s)
    end.
Proof.
  induction ds as [|d ds IH]; intros s O; [reflexivity|].
  cbn [map run fold_left]. fold (run (map Deliver ds) (step s (Deliver d))).
  rewrite IH by (rewrite <- O; apply (deliver_observing d LCP s)).
  cbn [paints flat_map]. fold (paints ds). rewrite last_of_app.
  destruct (last_of (paints ds)); [reflexivity|].
  destruct d as [l|l|l|l];
    try (change (last_of []) with (@None (LCPEntry num));
         apply (deliver_other_field LCP); discriminate).
  cbn [step metric_of observing callback]. rewrite O.
  unfold lcp_callback, last_of. destruct (rev l); reflexivity.
Qed.

Lemma run_fid ds : forall s : state num,
  fidObserving s = true ->
  fid (vitals (run (map Deliver ds) s))
  = match last_of (first_inputs ds) with
    | Some entry => Some (fid_value entry)
    | None => fid (vitals s)
    end.
Proof.
  induction ds as [|d ds IH]; intros s O; [reflexivity|].
  cbn [map run fold_left]. fold (run (map Deliver ds) (step s (Deliver d))).
  rewrite IH by (rewrite <- O; apply (deliver_observing d FID s)).
  cbn [first_inputs flat_map]. fold (first_inputs ds). rewrite last_of_app.
  destruct (last_of (first_inputs ds)); [reflexivity|].
  destruct d as [l|l|l|l];
    try (change (last_of []) with (@None (FirstInputEntry num));
         apply (deliver_other_field FID); discriminate).
  cbn [step metric_of observing callback]. rewrite O.
  destruct l; reflexivity.
Qed.

End VitalsFields.

(** X4. No event makes a field of the vitals snapshot go back to [null]:
    once a metric has a value it has one for the rest of the session, the
    stop handle included. *)
Theorem X4_vitals_fields_never_revert_to_null :
  forall (num : Type) (N : Number num) (s : Vitals.state num)
         (es : list (Vitals.event num)) (m : Vitals.metric),
    VitalsReadings.is_some (Vitals.field m (Vitals.vitals s)) = true ->
    VitalsReadings.is_some
      (Vitals.field m (Vitals.vitals (Vitals.run es s))) = true.
Proof.
  intros num N s es m. revert s.
  induction es as [|e es IH]; intros s H; [exact H|].
  cbn [Vitals.run fold_left]. apply IH. now apply step_keeps.
Qed.

(** Once an interaction of 40 ms was seen, [inp] has a value after any later
    events. *)
Lemma X4_witness_inp_stays_set :
  let s := Vitals.run
             [Vitals.Deliver (Vitals.InpEntries [Vitals.mkEventEntry 40])]
             (Vitals.set_observing Vitals.INP true Vitals.initial) in
  VitalsReadings.is_some (Vitals.field Vitals.INP (Vitals.vitals s)) = true /\
  VitalsReadings.is_some
    (Vitals.field Vitals.INP
       (Vitals.vitals
          (Vitals.run
             [Vitals.Deliver (Vitals.InpEntries [Vitals.mkEventEntry 8]);
              Vitals.Stop] s))) = true.
Proof.
  cbv zeta. split; [reflexivity|].
  apply (X4_vitals_fields_never_revert_to_null Q Number_Q). reflexivity.
Defined.

(** X5. On a host that accepts largest-contentful-paint entries, the [lcp]
    field is always computed from the last entry delivered so far, lists
    without entries counting for nothing: it is that entry's [renderTime], or
    its [loadTime] when the render time is zero, or [0] when both are; and it
    is [null] before the first entry. *)
Theorem X5_lcp_is_the_latest_entry :
  forall (num : Type) (N : Number num) (supported : string -> bool)
         (ds : list (Vitals.delivery num)),
    supported "largest-contentful-paint"%string = true ->
    exists s,
      Vitals.session supported (map Vitals.Deliver ds) = Some s /\
      Vitals.lcp (Vitals.vitals s)
      = option_map VitalsReadings.lcp_value
          (VitalsReadings.last_of (VitalsReadings.paints ds)).
Proof.
  intros num N supported ds S. unfold Vitals.session.
  destruct (mount_views (num:=num) supported) as [s0 [M V]]. rewrite M.
  eexists; split; [reflexivity|].
  pose proof (V Vitals.LCP) as V0. cbn [Vitals.entryType] in V0.
  rewrite S in V0. unfold Vitals.view in V0.
  cbn [Vitals.field Vitals.observing Vitals.acc] in V0.
  injection V0 as F O.
  rewrite (run_lcp ds s0 O), F.
  destruct (VitalsReadings.last_of _); reflexivity.
Qed.

(** Two paint candidates, then an empty list. *)
Lemma X5_witness_two_candidates :
  String.eqb "largest-contentful-paint" "largest-contentful-paint" = true /\
  exists s,
    Vitals.session (String.eqb "largest-contentful-paint")
      (map Vitals.Deliver
         [Vitals.LcpEntries [Vitals.mkLCPEntry 812.5 800;
                             Vitals.mkLCPEntry 0 1340.2];
          Vitals.LcpEntries []])
    = Some s /\
    Vitals.lcp (Vitals.vitals s) = Some 1340.2.
Proof.
  split; [reflexivity|].
  exact (X5_lcp_is_the_latest_entry Q Number_Q
           (String.eqb "largest-contentful-paint")
           [Vitals.LcpEntries [Vitals.mkLCPEntry 812.5 800;
                               Vitals.mkLCPEntry 0 1340.2];
            Vitals.LcpEntries []] eq_refl).
Defined.

(** X6. On a host that accepts first-input entries, every delivery that has
    an entry sets [fid] anew, to [processingStart - startTime] of its first
    entry: the field holds the delay of the latest such delivery, not of the
    first one. *)
Theorem X6_fid_is_set_by_every_delivery :
  forall (num : Type) (N : Number num) (supported : string -> bool)
         (ds : list (Vitals.delivery num)),
    supported "first-input"%string = true ->
    exists s,
      Vitals.session supported (map Vitals.Deliver ds) = Some s /\
      Vitals.fid (Vitals.vitals s)
      = option_map VitalsReadings.fid_value
          (VitalsReadings.last_of (VitalsReadings.first_inputs ds)).
Proof.
  intros num N supported ds S. unfold Vitals.session.
  destruct (mount_views (num:=num) supported) as [s0 [M V]]. rewrite M.
  eexists; split; [reflexivity|].
  pose proof (V Vitals.FID) as V0. cbn [Vitals.entryType] in V0.
  rewrite S in V0. unfold Vitals.view in V0.
  cbn [Vitals.field Vitals.observing Vitals.acc] in V0.
  injection V0 as F O.
  rewrite (run_fid ds s0 O), F.
  destruct (VitalsReadings.last_of _); reflexivity.
Qed.

(** Two deliveries of first-input entries: the delay of the second one
    stays. *)
Lemma X6_witness_second_delivery_wins :
  String.eqb "first-input" "first-input" = true /\
  exists s,
    Vitals.session (String.eqb "first-input")
      (map Vitals.Deliver
         [Vitals.FidEntries [Vitals.mkFirstInputEntry 1012 1000];
          Vitals.FidEntries [Vitals.mkFirstInputEntry 2040 2000;
                             Vitals.mkFirstInputEntry 2100 2050]])
    = Some s /\
    Vitals.fid (Vitals.vitals s) = Some (2040 - 2000).
Proof.
  split; [reflexivity|].
  exact (X6_fid_is_set_by_every_delivery Q Number_Q
           (String.eqb "first-input")
           [Vitals.FidEntries [Vitals.mkFirstInputEntry 1012 1000];
            Vitals.FidEntries [Vitals.mkFirstInputEntry 2040 2000;
                               Vitals.mkFirstInputEntry 2100 2050]] eq_refl).
Defined.

Section VitalsMonotone.
Import Vitals.

Lemma inp_entry_grows (s : state Q) entry :
  worstInp s <= worstInp (inp_entry s entry).
Proof.
  unfold inp_entry. cbn [num_truthy num_gt Number_Q].
  destruct (negb _ && gtb (duration entry) (worstInp s)) eqn:T.
  - apply andb_true_iff in T. destruct T as [_ G]. apply gtb_true in G.
    cbn. lra.
  - apply Qle_refl.
Qed.

Lemma inp_loop_grows entries : forall s : state Q,
  worstInp s <= worstInp (fold_left inp_entry entries s).
Proof.
  induction entries as [|e l IH]; intros s; [apply Qle_refl|].
  cbn [fold_left]. eapply Qle_trans; [apply inp_entry_grows|apply IH].
Qed.

Lemma sum_from_grows (l : list Q) : forall a,
  Forall (fun v => 0 <= v) l -> a <= sum_from a l.
Proof.
  induction l as [|v l IH]; intros a F; [apply Qle_refl|].
  inversion F as [|? ? Hv F']; subst. unfold sum_from in *.
  cbn [fold_left num_add Number_Q].
  eapply Qle_trans; [|apply IH; exact F']. lra.
Qed.

Lemma step_worstInp_grows (s : state Q) (e : event Q) :
  worstInp s <= worstInp (step s e).
Proof.
  destruct e as [d|]; [|apply Qle_refl]. cbn [step].
  destruct (observing (metric_of d) s); [|apply Qle_refl].
  destruct (callback d s) as [s'|] eqn:C; [|apply Qle_refl].
  destruct d as [l|l|l|l]; cbn [callback] in C.
  - pose proof (callback_frame (LcpEntries l) INP s s') as V.
    unfold view in V; cbn [acc] in V.
    assert (E : worstInp s' = worstInp s)
      by (specialize (V ltac:(discriminate) C); congruence).
    rewrite E. apply Qle_refl.
  - pose proof (callback_frame (ClsEntries l) INP s s') as V.
    unfold view in V; cbn [acc] in V.
    assert (E : worstInp s' = worstInp s)
      by (specialize (V ltac:(discriminate) C); congruence).
    rewrite E. apply Qle_refl.
  - pose proof (callback_frame (FidEntries l) INP s s') as V.
    unfold view in V; cbn [acc] in V.
    assert (E : worstInp s' = worstInp s)
      by (specialize (V ltac:(discriminate) C); congruence).
    rewrite E. apply Qle_refl.
  - unfold inp_callback in C. injection C as <-. apply inp_loop_grows.
Qed.

Lemma step_clsValue_grows (s : state Q) (e : event Q) :
  Forall (fun entry => 0 <= value entry) (counted (shifts [e])) ->
  clsValue s <= clsValue (step s e).
Proof.
  intros F. destruct e as [d|]; [|apply Qle_refl]. cbn [step].
  destruct (observing (metric_of d) s); [|apply Qle_refl].
  destruct (callback d s) as [s'|] eqn:C; [|apply Qle_refl].
  destruct d as [l|l|l|l]; cbn [callback] in C.
  - pose proof (callback_frame (LcpEntries l) CLS s s') as V.
    unfold view in V; cbn [acc] in V.
    assert (E : clsValue s' = clsValue s)
      by (specialize (V ltac:(discriminate) C); congruence).
    rewrite E. apply Qle_refl.
  - unfold cls_callback in C. injection C as <-.
    destruct (cls_loop_sum l s) as [E _]. rewrite E.
    apply sum_from_grows. cbn [shifts flat_map] in F.
    rewrite app_nil_r in F. apply Forall_map. exact F.
  - pose proof (callback_frame (FidEntries l) CLS s s') as V.
    unfold view in V; cbn [acc] in V.
    assert (E : clsValue s' = clsValue s)
      by (specialize (V ltac:(discriminate) C); congruence).
    rewrite E. apply Qle_refl.
  - pose proof (callback_frame (InpEntries l) CLS s s') as V.
    unfold view in V; cbn [acc] in V.
    assert (E : clsValue s' = clsValue s)
      by (specialize (V ltac:(discriminate) C); congruence).
    rewrite E. apply Qle_refl.
Qed.

End VitalsMonotone.

(** X7. Over exact numbers, the accumulators of the vitals observer only
    grow: [worstInp] never decreases, whatever is delivered, and [clsValue]
    never decreases as long as the counted layout-shift entries have values
    that are not negative. *)
Theorem X7_vitals_accumulators_only_grow :
  forall (es : list (Vitals.event Q)) (s : Vitals.state Q),
    Forall (fun entry => 0 <= Vitals.value entry)
      (Vitals.counted (Vitals.shifts es)) ->
    Vitals.worstInp s <= Vitals.worstInp (Vitals.run es s) /\
    Vitals.clsValue s <= Vitals.clsValue (Vitals.run es s).
Proof.
  induction es as [|e es IH]; intros s F; [split; apply Qle_refl|].
  cbn [Vitals.run fold_left].
  assert (E : Vitals.shifts (e :: es)
              = Vitals.shifts [e] ++ Vitals.shifts es)
    by (unfold Vitals.shifts; cbn [flat_map]; now rewrite app_nil_r).
  rewrite E in F.
  unfold Vitals.counted in F. rewrite filter_app in F.
  apply Forall_app in F. destruct F as [F1 F2].
  destruct (IH (Vitals.step s e) F2) as [W C].
  split.
  - eapply Qle_trans; [apply step_worstInp_grows|exact W].
  - eapply Qle_trans; [apply step_clsValue_grows; exact F1|exact C].
Qed.

(** Shifts of 0.05 and 0.03 and interactions of 120 and 90 ms. *)
Lemma X7_witness_shifts_and_interactions :
  let es :=
    [Vitals.Deliver (Vitals.ClsEntries [Vitals.mkLayoutShiftEntry 0.05 false]);
     Vitals.Deliver (Vitals.InpEntries (map Vitals.mkEventEntry [120; 90]));
     Vitals.Deliver (Vitals.ClsEntries [Vitals.mkLayoutShiftEntry 0.03 false])]
  in
  let s := Vitals.set_observing Vitals.CLS true
             (Vitals.set_observing Vitals.INP true Vitals.initial) in
  Forall (fun entry => 0 <= Vitals.value entry)
    (Vitals.counted (Vitals.shifts es)) /\
  0 <= Vitals.worstInp (Vitals.run es s) /\
  0 <= Vitals.clsValue (Vitals.run es s).
Proof.
  cbv zeta.
  assert (F : Forall (fun entry : Vitals.LayoutShiftEntry Q =>
                        0 <= Vitals.value entry)
                (Vitals.counted (Vitals.shifts
    [Vitals.Deliver (Vitals.ClsEntries [Vitals.mkLayoutShiftEntry 0.05 false]);
     Vitals.Deliver (Vitals.InpEntries (map Vitals.mkEventEntry [120; 90]));
     Vitals.Deliver (Vitals.ClsEntries [Vitals.mkLayoutShiftEntry 0.03 false])]))).
  { repeat constructor; vm_compute; discriminate. }
  split; [exact F|].
  exact (X7_vitals_accumulators_only_grow _
           (Vitals.set_observing Vitals.CLS true
              (Vitals.set_observing Vitals.INP true Vitals.initial)) F).
Defined.

(** ** The call interceptor: the success path, rounding, nesting *)

Section NetworkMore.
Import Network.

Lemma Qfloor_nonneg (q : Q) : 0 <= q -> (0 <= Qfloor q)%Z.
Proof.
  intros H. change 0%Z with (Qfloor 0). now apply Qfloor_resp_le.
Qed.

Lemma toFixed2_nonneg (q : Q) : 0 <= q -> 0 <= parseFloat_toFixed2 q.
Proof.
  intros H. unfold parseFloat_toFixed2.
  destruct (Qle_bool _ (Qabs q)); [exact H|].
  assert (B : Qle_bool 0 q = true) by (now apply Qle_bool_iff).
  rewrite B. rewrite Qmake_hundredths.
  assert (F : (0 <= Qfloor (q * 100 + (1 # 2)))%Z)
    by (apply Qfloor_nonneg; lra).
  rewrite Zle_Qle in F. change (inject_Z 0) with 0 in F. lra.
Qed.

(** A whole number of hundredths is what [parseFloat(x.toFixed(2))] returns
    for it. *)
Lemma toFixed2_hundredths (n : Z) :
  parseFloat_toFixed2 (n # 100) == n # 100.
Proof.
  unfold parseFloat_toFixed2.
  destruct (Qle_bool _ (Qabs (n # 100))); [reflexivity|].
  destruct (Qle_bool 0 (n # 100)) eqn:S.
  - assert (E : (n # 100) * 100 + (1 # 2) == inject_Z n + (1 # 2))
      by (rewrite Qmake_hundredths; ring).
    rewrite E, Qfloor_half. reflexivity.
  - assert (E : - (n # 100) * 100 + (1 # 2) == inject_Z (- n) + (1 # 2))
      by (rewrite Qmake_hundredths, inject_Z_opp; ring).
    rewrite E, Qfloor_half. unfold Qeq, Qopp. simpl. lia.
Qed.

End NetworkMore.

(** X8. When the call the wrapper awaits succeeds, at a clock read not
    before the read at the start of the call, the wrapper hands
    [setRequests] one record, which becomes the head of the history, with
    the status of the response, the url of the call, the time [Date.now()]
    gave and a duration that is not negative; its own promise fulfils with
    the same response, and [window.fetch] is left alone. *)
Theorem X8_successful_call_is_recorded_and_returned :
  forall (c : Network.effect) (w : Network.world) (n : nat) (k : Network.call)
         (response : Network.Response) (now : Q) (dateNow : Z),
    nth_error (Network.in_flight w) n = Some k ->
    Network.startTime k <= now ->
    let w' := Network.step c w
                (Network.Settle n (Network.Fulfilled response) now dateNow) in
    (exists r,
        Network.setRequests_calls w' = r :: Network.setRequests_calls w /\
        hd_error (Network.requests w') = Some r /\
        Network.status r = Network.response_status response /\
        Network.url r = Network.call_url k /\
        Network.timestamp r = dateNow /\
        0 <= Network.duration r) /\
    Network.returned w' = Network.Fulfilled response :: Network.returned w /\
    Network.window_fetch w' = Network.window_fetch w /\
    Network.in_flight w' = Network.remove_nth n (Network.in_flight w).
Proof.
  intros c w n k response now dateNow I T. cbv zeta.
  rewrite (settle_step c w n k _ now dateNow I).
  cbn [Network.setRequests_calls Network.requests Network.returned
       Network.window_fetch Network.in_flight Network.wrapper_outcome].
  split; [|repeat split].
  eexists. split; [reflexivity|]. split; [reflexivity|].
  cbn [Network.record_of Network.status Network.url Network.timestamp
       Network.duration].
  repeat split. apply toFixed2_nonneg. lra.
Qed.

(** A call made through the installed wrapper at clock 10 that is answered
    with a 404 at clock 22.34567. *)
Lemma X8_witness_not_found :
  let c := snd (Network.mount (Network.initial (Network.Extern 0) 0)) in
  let w := Network.run c [Network.Call "/api/items" 10]
             (fst (Network.mount (Network.initial (Network.Extern 0) 0))) in
  let w' := Network.step c w
              (Network.Settle 0 (Network.Fulfilled (Network.mkResponse 7 404))
                 22.34567 1700000000000) in
  Network.startTime (Network.mkCall "/api/items" 10) <= 22.34567 /\
  Network.requests w'
  = [Network.mkNetworkRequest "/api/items" 404 12.35 1700000000000] /\
  Network.returned w' = [Network.Fulfilled (Network.mkResponse 7 404)].
Proof.
  cbv zeta.
  assert (T : Network.startTime (Network.mkCall "/api/items" 10) <= 22.34567)
    by (vm_compute; discriminate).
  split; [exact T|].
  destruct (X8_successful_call_is_recorded_and_returned
              (snd (Network.mount (Network.initial (Network.Extern 0) 0)))
              (Network.run
                 (snd (Network.mount (Network.initial (Network.Extern 0) 0)))
                 [Network.Call "/api/items" 10]
                 (fst (Network.mount (Network.initial (Network.Extern 0) 0))))
              0 (Network.mkCall "/api/items" 10) (Network.mkResponse 7 404)
              22.34567 1700000000000 eq_refl T)
    as [_ [R _]].
  split; [vm_compute; reflexivity|exact R].
Defined.

(** X9. The rounding of the success path is a projection: what
    [parseFloat(x.toFixed(2))] returns it returns again when applied to its
    own result, so a duration that already is a whole number of hundredths of
    a millisecond is recorded as it is. *)
Theorem X9_duration_rounding_is_a_projection :
  (forall n : Z,
      Network.parseFloat_toFixed2 (n # 100) == n # 100) /\
  (forall x : Q,
      Network.parseFloat_toFixed2 (Network.parseFloat_toFixed2 x)
      == Network.parseFloat_toFixed2 x).
Proof.
  split; [exact toFixed2_hundredths|].
  intros x.
  destruct (Qlt_le_dec (Qabs x) (inject_Z (10 ^ 21))) as [B|B].
  - destruct (toFixed2_rounds x B) as [n [E _]]. rewrite E.
    apply toFixed2_hundredths.
  - assert (E : Network.parseFloat_toFixed2 x = x).
    { unfold Network.parseFloat_toFixed2.
      apply Qle_bool_iff in B. now rewrite B. }
    now rewrite !E.
Qed.

(** X10. Two interceptors started one after the other: the second wraps the
    wrapper of the first.  Stopped in the reverse order they leave
    [window.fetch] as it was before both; stopped in the order they were
    started they leave the wrapper of the first interceptor installed, which
    is not the function from before, because each stop handle assigns the
    function its own effect captured, whatever [window.fetch] holds then. *)
Theorem X10_nested_interceptors_must_stop_in_reverse_order :
  forall w : Network.world,
    let w1 := fst (Network.mount w) in
    let a := snd (Network.mount w) in
    let w2 := fst (Network.mount w1) in
    let b := snd (Network.mount w1) in
    Network.originalFetch b = Network.wrapper a /\
    Network.window_fetch (Network.cleanup a (Network.cleanup b w2))
    = Network.window_fetch w /\
    Network.window_fetch (Network.cleanup b (Network.cleanup a w2))
    = Network.wrapper a /\
    Network.wrapper a <> Network.window_fetch w /\
    (forall f : Network.fetch_fn,
        Network.window_fetch
          (Network.cleanup a (Network.step a w2 (Network.Assign f)))
        = Network.window_fetch w).
Proof.
  intros w. cbv zeta.
  cbn [Network.mount fst snd Network.cleanup Network.window_fetch
       Network.wrapper Network.originalFetch Network.step].
  repeat split. apply wrapper_fresh.
Qed.

(** ** The dashboard: colours and texts of the vitals *)

Section DashboardVitals.
Import Dashboard.

Lemma ltb_true (a b : Q) : ltb a b = true <-> a < b.
Proof. apply (gtb_true b a). Qed.

Lemma ltb_false (a b : Q) : ltb a b = false <-> b <= a.
Proof. apply (gtb_false b a). Qed.

(** The three bands of [getVitalColor] for the thresholds [good] and
    [poor]. *)
Lemma bands_monotone (good poor v v' : Q) :
  good <= poor -> v <= v' ->
  (severity (if ltb v good then "#00ff41"
             else if ltb v poor then "#ffa500" else "#ff0000")
   <= severity (if ltb v' good then "#00ff41"
                else if ltb v' poor then "#ffa500" else "#ff0000"))%nat.
Proof.
  intros T L.
  destruct (ltb v good) eqn:A, (ltb v poor) eqn:B,
           (ltb v' good) eqn:A', (ltb v' poor) eqn:B';
    cbn; try lia; exfalso;
    repeat match goal with
           | H : ltb _ _ = true |- _ => apply ltb_true in H
           | H : ltb _ _ = false |- _ => apply ltb_false in H
           end; lra.
Qed.

Lemma chars_app (a b : string) :
  list_ascii_of_string (a ++ b)
  = list_ascii_of_string a ++ list_ascii_of_string b.
Proof. induction a as [|c a IH]; simpl; [reflexivity|now rewrite IH]. Qed.



End DashboardVitals.

(** X11. [getVitalColor] gives grey for a metric without a value and one of
    green, orange and red for a metric with one; and for every metric the
    colour never gets better as the value grows: a larger value is never
    shown in a less severe colour. *)
Theorem X11_vital_colour_worsens_with_the_value :
  forall metric : Dashboard.vital_key,
    Dashboard.getVitalColor metric None = "#888"%string /\
    (forall v : Q,
        (Dashboard.severity (Dashboard.getVitalColor metric (Some v)) <= 2)%nat) /\
    (forall v v' : Q,
        v <= v' ->
        (Dashboard.severity (Dashboard.getVitalColor metric (Some v))
         <= Dashboard.severity (Dashboard.getVitalColor metric (Some v')))%nat).
Proof.
  intros metric. split; [reflexivity|]. split.
  - intros v. destruct metric; cbn [Dashboard.getVitalColor];
      destruct (ltb v _); try (cbn; lia); destruct (ltb v _); cbn; lia.
  - intros v v' L. destruct metric; cbn [Dashboard.getVitalColor];
      apply bands_monotone; auto; vm_compute; discriminate.
Qed.

(** An LCP of 2.4 s and one of 4.1 s. *)
Lemma X11_witness_lcp_green_then_red :
  2400 <= 4100 /\
  Nat.le
    (Dashboard.severity (Dashboard.getVitalColor Dashboard.lcp (Some 2400)))
    (Dashboard.severity (Dashboard.getVitalColor Dashboard.lcp (Some 4100))).
Proof.
  assert (L : 2400 <= 4100) by (vm_compute; discriminate).
  split; [exact L|].
  exact (proj2 (proj2 (X11_vital_colour_worsens_with_the_value Dashboard.lcp))
           2400 4100 L).
Defined.



(** ** The dashboard: dragging *)

Section Dragging.
Import Dashboard.

Lemma moves_while_dragging moves : forall s,
  isDragging s = true ->
  isDragging (run (map (fun p => MouseMove (fst p) (snd p)) moves) s) = true /\
  dragOffset (run (map (fun p => MouseMove (fst p) (snd p)) moves) s)
  = dragOffset s.
Proof.
  induction moves as [|p moves IH]; intros s D; [split; [exact D|reflexivity]|].
  cbn [map run fold_left step]. unfold handleMouseMove. rewrite D. cbn [negb].
  set (s1 := mkState _ _ _ _).
  destruct (IH s1 eq_refl) as [D1 O1]. split; [exact D1|exact O1].
Qed.

Lemma step_not_dragging (s : state) (e : event) :
  isDragging s = false -> is_grab e = false ->
  isDragging (step s e) = false /\ position (step s e) = position s.
Proof.
  intros D G. destruct e as [b cx cy|cx cy| | |]; cbn [step].
  - cbn [is_grab] in G. unfold handleMouseDown. rewrite G. split; auto.
  - unfold handleMouseMove. rewrite D. split; auto.
  - split; reflexivity.
  - split; [exact D|reflexivity].
  - split; [exact D|reflexivity].
Qed.

End Dragging.

(** X13. While the left button is held, the overlay follows the pointer: after
    a press of the left button at [(cx, cy)] and any moves of the mouse,
    the last of them to [(mx, my)], the overlay has moved from where it was
    by exactly the vector from the press to the pointer, so the point that was
    grabbed stays under the pointer. *)
Theorem X13_dragged_overlay_follows_the_pointer :
  forall (s : Dashboard.state) (cx cy mx my : Q) (moves : list (Q * Q)),
    let s' :=
      Dashboard.run
        (Dashboard.MouseDown 0 cx cy
         :: map (fun p => Dashboard.MouseMove (fst p) (snd p)) moves
         ++ [Dashboard.MouseMove mx my]) s in
    Dashboard.x (Dashboard.position s')
    == Dashboard.x (Dashboard.position s) + (mx - cx) /\
    Dashboard.y (Dashboard.position s')
    == Dashboard.y (Dashboard.position s) + (my - cy) /\
    Dashboard.isDragging s' = true.
Proof.
  intros s cx cy mx my moves. cbv zeta.
  unfold Dashboard.run. cbn [fold_left Dashboard.step].
  rewrite fold_left_app. cbn [fold_left Dashboard.step].
  unfold Dashboard.handleMouseDown. cbn [Z.eqb negb].
  set (s1 := Dashboard.mkState _ true _ _).
  fold (Dashboard.run
          (map (fun p => Dashboard.MouseMove (fst p) (snd p)) moves) s1).
  destruct (moves_while_dragging moves s1 eq_refl) as [D O].
  unfold Dashboard.handleMouseMove. rewrite D, O. subst s1.
  cbn [negb Dashboard.position Dashboard.dragOffset Dashboard.x Dashboard.y
       Dashboard.isDragging].
  split; [ring|]. split; [ring|reflexivity].
Qed.

(** X14. The overlay moves only while it is dragged: from a state in which
    no drag is going on, events among which there is no press of the left
    button (moves of the mouse, releases, presses of other buttons,
    minimizing and maximizing) leave the position where it is; in
    particular, after the button is released the overlay stays put. *)
Theorem X14_overlay_stays_put_unless_dragged :
  forall (s : Dashboard.state) (es : list Dashboard.event),
    Forall (fun e => Dashboard.is_grab e = false) es ->
    (Dashboard.isDragging s = false ->
     Dashboard.position (Dashboard.run es s) = Dashboard.position s) /\
    Dashboard.position (Dashboard.run (Dashboard.MouseUp :: es) s)
    = Dashboard.position s.
Proof.
  intros s es F.
  assert (G : forall es s, Forall (fun e => Dashboard.is_grab e = false) es ->
              Dashboard.isDragging s = false ->
              Dashboard.position (Dashboard.run es s) = Dashboard.position s).
  { clear. induction es as [|e es IH]; intros s F D; [reflexivity|].
    inversion F as [|? ? Fe Fes]; subst. cbn [Dashboard.run fold_left].
    destruct (step_not_dragging s e D Fe) as [D' P'].
    fold (Dashboard.run es (Dashboard.step s e)).
    now rewrite IH. }
  split; [now apply G|].
  cbn [Dashboard.run fold_left Dashboard.step].
  fold (Dashboard.run es (Dashboard.handleMouseUp s)).
  now rewrite G.
Qed.

(** A drag of the overlay that ends, followed by moves of the mouse and a
    press of the right button. *)
Lemma X14_witness_moves_after_release :
  let es := [Dashboard.MouseMove 300 200; Dashboard.MouseDown 2 310 210;
             Dashboard.MouseMove 500 400; Dashboard.Minimize] in
  let s := Dashboard.run
             [Dashboard.MouseDown 0 30 25; Dashboard.MouseMove 130 75]
             Dashboard.initial in
  Forall (fun e => Dashboard.is_grab e = false) es /\
  Dashboard.position (Dashboard.run (Dashboard.MouseUp :: es) s)
  = Dashboard.mkPoint (130 - (30 - 20)) (75 - (25 - 20)).
Proof.
  cbv zeta.
  assert (F : Forall (fun e => Dashboard.is_grab e = false)
                [Dashboard.MouseMove 300 200; Dashboard.MouseDown 2 310 210;
                 Dashboard.MouseMove 500 400; Dashboard.Minimize])
    by (repeat constructor).
  split; [exact F|].
  rewrite (proj2 (X14_overlay_stays_put_unless_dragged _ _ F)).
  reflexivity.
Defined.

(** ** The dashboard: the rows of the network section *)

Section NetworkRows.
Import Dashboard.

Lemma split_slash_nonempty (s : string) : split_slash s <> [].
Proof.
  destruct s as [|c r]; simpl; [discriminate|].
  destruct (Ascii.eqb c "/"); [discriminate|].
  destruct (split_slash r); discriminate.
Qed.

(** Joining the pieces with slashes gives the string back. *)
Lemma split_slash_join (s : string) :
  String.concat "/" (split_slash s) = s.
Proof.
  induction s as [|c r IH]; [reflexivity|].
  cbn [split_slash]. destruct (Ascii.eqb_spec c "/") as [->|Hc].
  - pose proof (split_slash_nonempty r) as NE.
    destruct (split_slash r) as [|seg segs] eqn:E; [contradiction|].
    change (String "/" (String.concat "/" (seg :: segs)) = String "/" r).
    now rewrite IH.
  - destruct (split_slash r) as [|seg segs] eqn:E.
    + exfalso. exact (split_slash_nonempty r E).
    + destruct segs as [|seg' segs'].
      * change (String c (String.concat "/" [seg]) = String c r).
        now rewrite IH.
      * change (String c (String.concat "/" (seg :: seg' :: segs'))
                = String c r).
        now rewrite IH.
Qed.

Lemma split_slash_clean (s : string) :
  Forall (fun seg => ~ In "/"%char (list_ascii_of_string seg)) (split_slash s).
Proof.
  induction s as [|c r IH]; [repeat constructor; simpl; tauto|].
  cbn [split_slash]. destruct (Ascii.eqb_spec c "/") as [->|Hc].
  - constructor; [simpl; tauto|exact IH].
  - destruct (split_slash r) as [|seg segs]; [repeat constructor|].
    + simpl. intros [H|[]]. congruence.
    + inversion IH as [|? ? Hs Hss]; subst. constructor; [|exact Hss].
      simpl. intros [H|H]; [congruence|exact (Hs H)].
Qed.

(** Splitting goes through a slash: the pieces of [pre/rest] are the pieces
    of [pre], then the pieces of [rest]. *)
Lemma split_slash_app (pre rest : string) :
  split_slash (pre ++ String "/" rest)
  = split_slash pre ++ split_slash rest.
Proof.
  induction pre as [|c p IH]; [reflexivity|].
  cbn [append split_slash]. destruct (Ascii.eqb c "/").
  - now rewrite IH.
  - rewrite IH. pose proof (split_slash_nonempty p) as N.
    destruct (split_slash p) as [|h t]; [contradiction|reflexivity].
Qed.

(** A string without a slash is its only piece. *)
Lemma split_slash_plain (seg : string) :
  ~ In "/"%char (list_ascii_of_string seg) -> split_slash seg = [seg].
Proof.
  induction seg as [|c r IH]; intros C; [reflexivity|].
  cbn [split_slash]. destruct (Ascii.eqb_spec c "/") as [->|Hc].
  - exfalso. apply C. simpl. now left.
  - rewrite IH; [reflexivity|]. intros H. apply C. simpl. now right.
Qed.

Lemma string_app_assoc (a b c : string) :
  ((a ++ b) ++ c = a ++ (b ++ c))%string.
Proof. induction a as [|x a IH]; simpl; [reflexivity|now rewrite IH]. Qed.

Lemma concat_last (sep : string) (ls : list string) :
  ls <> [] -> exists pre, String.concat sep ls = (pre ++ last ls "")%string.
Proof.
  induction ls as [|a ls IH]; [congruence|]. intros _.
  destruct ls as [|b ls].
  - exists ""%string. reflexivity.
  - destruct IH as [pre E]; [discriminate|].
    exists (a ++ sep ++ pre)%string.
    change (String.concat sep (a :: b :: ls))
      with (a ++ sep ++ String.concat sep (b :: ls))%string.
    rewrite E. change (last (a :: b :: ls) ""%string)
      with (last (b :: ls) ""%string).
    now rewrite !string_app_assoc.
Qed.

End NetworkRows.

(** X15. The label of a request row, [url.split('/').pop() || url], is what
    follows the last slash of the url when that is not empty: for a url
    [pre/seg] with [seg] not empty and free of slashes it is [seg].  A url
    that ends with a slash, and a url without any slash, the empty one
    included, is shown whole.  In every case the label is the end of the
    url, it is the whole url or free of slashes, and it is empty only for the
    empty url. *)
Theorem X15_request_label_is_the_last_segment :
  (forall (pre seg : string),
      seg <> ""%string ->
      ~ In "/"%char (list_ascii_of_string seg) ->
      Dashboard.request_label (pre ++ "/" ++ seg) = seg) /\
  (forall pre : string,
      Dashboard.request_label (pre ++ "/") = (pre ++ "/")%string) /\
  (forall url : string,
      ~ In "/"%char (list_ascii_of_string url) ->
      Dashboard.request_label url = url) /\
  (forall url : string,
      (exists pre, url = (pre ++ Dashboard.request_label url)%string) /\
      (Dashboard.request_label url = url \/
       ~ In "/"%char (list_ascii_of_string (Dashboard.request_label url))) /\
      (Dashboard.request_label url = ""%string -> url = ""%string)).
Proof.
  split; [|split; [|split]].
  - intros pre seg NE C. unfold Dashboard.request_label.
    change (pre ++ "/" ++ seg)%string with (pre ++ String "/" seg)%string.
    rewrite split_slash_app, (split_slash_plain seg C), last_last.
    destruct (String.eqb_spec seg ""); [contradiction|reflexivity].
  - intros pre. unfold Dashboard.request_label.
    change (pre ++ "/")%string with (pre ++ String "/" "")%string.
    rewrite split_slash_app. cbn [Dashboard.split_slash].
    rewrite last_last. reflexivity.
  - intros url C. unfold Dashboard.request_label.
    rewrite (split_slash_plain url C). cbn [last].
    destruct (String.eqb_spec url ""); [now subst|reflexivity].
  - intros url. unfold Dashboard.request_label.
    destruct (String.eqb_spec (last (Dashboard.split_slash url) ""%string) "")
      as [E|NE].
    + split; [exists ""%string; reflexivity|]. split; [now left|auto].
    + split; [|split].
      * destruct (concat_last "/" (Dashboard.split_slash url)
                    (split_slash_nonempty url)) as [pre P].
        exists pre. now rewrite <- P, split_slash_join.
      * right. pose proof (split_slash_clean url) as F.
        pose proof (split_slash_nonempty url) as N.
        destruct (exists_last N) as [init [seg L]]. rewrite L in *.
        rewrite last_last. apply Forall_app in F. destruct F as [_ F].
        now inversion F.
      * intros H. contradiction.
Qed.

(** The url of an endpoint, and the url of a directory. *)
Lemma X15_witness_endpoint_and_directory :
  "users"%string <> ""%string /\
  ~ In "/"%char (list_ascii_of_string "users") /\
  Dashboard.request_label "https://api.example.com/v1/users" = "users"%string /\
  Dashboard.request_label "https://api.example.com/v1/"
  = "https://api.example.com/v1/"%string.
Proof.
  assert (NE : "users"%string <> ""%string) by discriminate.
  assert (C : ~ In "/"%char (list_ascii_of_string "users")).
  { simpl. intros H. repeat (destruct H as [H|H]; [discriminate H|]).
    exact H. }
  split; [exact NE|]. split; [exact C|]. split.
  - exact (proj1 X15_request_label_is_the_last_segment
             "https://api.example.com/v1"%string "users"%string NE C).
  - exact (proj1 (proj2 X15_request_label_is_the_last_segment)
             "https://api.example.com/v1"%string).
Defined.

(** X16. In the network section the status of a record is shown in red
    exactly when the call was answered with a status of 400 or more.  A call
    that failed is recorded with status [0] and so is never shown in red. *)
Theorem X16_failed_call_is_not_shown_in_red :
  forall (c : Network.effect) (w : Network.world) (n : nat) (k : Network.call)
         (o : Network.outcome) (now : Q) (dateNow : Z),
    nth_error (Network.in_flight w) n = Some k ->
    exists r,
      hd_error
        (Network.requests (Network.step c w (Network.Settle n o now dateNow)))
      = Some r /\
      (Dashboard.status_color (Network.status r) = "red"%string <->
       exists response,
         o = Network.Fulfilled response /\
         (400 <= Network.response_status response)%Z) /\
      (Dashboard.status_color (Network.status r) = "inherit"%string <->
       match o with
       | Network.Fulfilled response =>
           (Network.response_status response < 400)%Z
       | Network.Rejected _ => True
       end).
Proof.
  intros c w n k o now dateNow I.
  rewrite (settle_step c w n k o now dateNow I).
  eexists. split; [reflexivity|].
  unfold Dashboard.status_color.
  destruct o as [response|err]; cbn [Network.record_of Network.status].
  - destruct (Z.leb_spec 400 (Network.response_status response)) as [H|H].
    + split; split; intros X; try reflexivity; try discriminate; try lia.
      exists response. auto.
    + split; split; intros X; try reflexivity; try discriminate; try lia.
      destruct X as [r' [[= <-] X]]. lia.
  - cbn. split; split; intros X; try reflexivity; try discriminate; auto.
    destruct X as [r' [X _]]. discriminate.
Qed.

(** A call that fails and one that is answered with a 503. *)
Lemma X16_witness_failure_and_server_error :
  let c := snd (Network.mount (Network.initial (Network.Extern 0) 0)) in
  let w := Network.run c [Network.Call "/api/items" 10]
             (fst (Network.mount (Network.initial (Network.Extern 0) 0))) in
  nth_error (Network.in_flight w) 0 = Some (Network.mkCall "/api/items" 10) /\
  map (fun r => Dashboard.status_color (Network.status r))
    (Network.requests
       (Network.step c w
          (Network.Settle 0 (Network.Rejected (TypeError "Failed to fetch"))
             25 1700000000000)))
  = ["inherit"%string].
Proof.
  cbv zeta. split; [reflexivity|].
  destruct (X16_failed_call_is_not_shown_in_red
              (snd (Network.mount (Network.initial (Network.Extern 0) 0)))
              (Network.run
                 (snd (Network.mount (Network.initial (Network.Extern 0) 0)))
                 [Network.Call "/api/items" 10]
                 (fst (Network.mount (Network.initial (Network.Extern 0) 0))))
              0 (Network.mkCall "/api/items" 10)
              (Network.Rejected (TypeError "Failed to fetch"))
              25 1700000000000 eq_refl) as [r [H [_ [_ C]]]].
  reflexivity.
Defined.

(** ** The frame-rate sampler at a steady frame period *)

Section FpsSteady.

Lemma steady_frames_app t0 p a n1 n2 :
  steady_frames t0 p a (n1 + n2)
  = steady_frames t0 p a n1 ++ steady_frames t0 p (a + n1) n2.
Proof.
  unfold steady_frames. rewrite seq_app, map_app.
  replace (S a + n1)%nat with (S (a + n1)) by lia. reflexivity.
Qed.

(** One window of [m] frames, [m * p] being 1000 ms, from a window start at
    the [a]-th frame time: the first [m - 1] frames do not reach 1000 ms, the
    [m]-th closes the window with the count as the rate. *)
Lemma steady_window (t0 p : Q) (m a : nat) (n : Z) (start : Q) (rest : list Q) :
  0 < p -> inject_Z (Z.of_nat m) * p == 1000 ->
  start == t0 + inject_Z (Z.of_nat a) * p ->
  Fps.rates n start (steady_frames t0 p a m ++ rest)
  = (n + Z.of_nat m)%Z
    :: Fps.rates 0 (t0 + inject_Z (Z.of_nat (a + m)) * p) rest.
Proof.
  intros P M S.
  destruct m as [|m'].
  { exfalso. change (inject_Z (Z.of_nat 0)) with 0 in M. lra. }
  replace (Datatypes.S m') with (m' + 1)%nat in * by lia.
  rewrite steady_frames_app, <- app_assoc.
  assert (QM : inject_Z (Z.of_nat (m' + 1)) == inject_Z (Z.of_nat m') + 1).
  { rewrite Nat2Z.inj_add, inject_Z_plus. reflexivity. }
  rewrite rates_below.
  - unfold steady_frames at 2. cbn [seq map app Fps.rates].
    unfold steady_frames. rewrite length_map, length_seq.
    assert (E : t0 + inject_Z (Z.of_nat (Datatypes.S (a + m'))) * p - start
                == 1000).
    { rewrite S. replace (Z.of_nat (Datatypes.S (a + m')))
        with (Z.of_nat a + Z.of_nat (m' + 1))%Z by lia.
      rewrite inject_Z_plus. rewrite <- M. ring. }
    assert (G : geb (t0 + inject_Z (Z.of_nat (Datatypes.S (a + m'))) * p
                     - start) 1000 = true)
      by (apply geb_true; rewrite E; apply Qle_refl).
    rewrite G. f_equal.
    + unfold Math_round.
      assert (R : inject_Z ((n + Z.of_nat m' + 1) * 1000)
                  / (t0 + inject_Z (Z.of_nat (Datatypes.S (a + m'))) * p
                     - start) + (1 # 2)
                  == inject_Z (n + Z.of_nat (m' + 1)) + (1 # 2)).
      { rewrite E. rewrite inject_Z_mult.
        replace (n + Z.of_nat (m' + 1))%Z with (n + Z.of_nat m' + 1)%Z by lia.
        change (inject_Z 1000) with 1000. field. }
      rewrite R. apply Qfloor_half.
    + replace (a + (m' + 1))%nat with (Datatypes.S (a + m')) by lia.
      reflexivity.
  - unfold steady_frames. apply Forall_forall. intros t T.
    apply in_map_iff in T. destruct T as [i [<- I]]. apply in_seq in I.
    assert (B : (Z.of_nat i <= Z.of_nat a + Z.of_nat m')%Z) by lia.
    rewrite Zle_Qle, inject_Z_plus in B.
    rewrite S. rewrite QM in M.
    set (qi := inject_Z (Z.of_nat i)) in *.
    set (qa := inject_Z (Z.of_nat a)) in *.
    set (qm := inject_Z (Z.of_nat m')) in *.
    nra.
Qed.

Lemma steady_windows (t0 p : Q) (m : nat) :
  0 < p -> inject_Z (Z.of_nat m) * p == 1000 ->
  forall (k a : nat) (n : Z) (start : Q),
    start == t0 + inject_Z (Z.of_nat a) * p ->
    Fps.rates n start (steady_frames t0 p a (k * m))
    = match k with
      | O => []
      | Datatypes.S k' => (n + Z.of_nat m)%Z :: repeat (Z.of_nat m) k'
      end.
Proof.
  intros P M. induction k as [|k IH]; intros a n start S; [reflexivity|].
  cbn [Nat.mul]. rewrite steady_frames_app.
  rewrite (steady_window t0 p m a n start _ P M S).
  rewrite IH by reflexivity. f_equal. destruct k; reflexivity.
Qed.

End FpsSteady.

(** X17. On a host that renders a frame every [p] milliseconds, [m] frames
    making up 1000 ms exactly, with the clock not moving between the two
    reads of the effect, the sampler reports one rate every [m] frames: the
    first is [m + 1], because the synchronous first call of the loop is
    counted as a frame of the first window, and every later one is [m]. *)
Theorem X17_steady_frames_first_rate_is_one_too_high :
  forall (t0 p : Q) (m k : nat),
    0 < p -> inject_Z (Z.of_nat m) * p == 1000 ->
    Fps.setFps_calls
      (Fps.run (map Fps.Frame (steady_frames t0 p 0 (k * m)))
         (Fps.mount t0 t0))
    = match k with
      | O => []
      | Datatypes.S k' => (Z.of_nat m + 1)%Z :: repeat (Z.of_nat m) k'
      end.
Proof.
  intros t0 p m k P M.
  destruct (run_frames (steady_frames t0 p 0 (k * m)) (Fps.mount t0 t0)
              (loop_queued _ _)) as [_ E].
  rewrite E. clear E.
  assert (G : geb (t0 - t0) 1000 = false) by (apply geb_false; lra).
  unfold Fps.mount, Fps.loop.
  cbn [Fps.lastTime Fps.frameCount Fps.setFps_calls]. rewrite G.
  cbn [Fps.requestAnimationFrame_loop Fps.lastTime Fps.frameCount
       Fps.setFps_calls app].
  rewrite (steady_windows t0 p m P M k 0 (0 + 1)%Z t0)
    by (simpl; ring).
  destruct k; [reflexivity|]. f_equal. lia.
Qed.

(** Fifty frames a second for three seconds: 51, then 50, then 50. *)
Lemma X17_witness_fifty_frames_a_second :
  0 < 20 /\ inject_Z (Z.of_nat 50) * 20 == 1000 /\
  Fps.setFps_calls
    (Fps.run (map Fps.Frame (steady_frames 0 20 0 (3 * 50))) (Fps.mount 0 0))
  = [51; 50; 50]%Z.
Proof.
  assert (P : 0 < 20) by reflexivity.
  assert (M : inject_Z (Z.of_nat 50) * 20 == 1000) by reflexivity.
  split; [exact P|]. split; [exact M|].
  exact (X17_steady_frames_first_rate_is_one_too_high 0 20 50 3 P M).
Defined.

(** ** The dashboard: the texts of the variant without [formatVital] *)

Section InlineTexts.
Import Dashboard.

Lemma toFixed_has_point (digits : nat) (v : Q) (t : string) :
  toFixed (S digits) v = Some t -> In "."%char (list_ascii_of_string t).
Proof.
  unfold toFixed. destruct (Qle_bool _ _); [discriminate|].
  intros [= <-]. rewrite !chars_app. apply in_or_app. right.
  apply in_or_app. right. simpl. auto.
Qed.

Lemma ms_suffix_not_NA (d : string) : (d ++ "ms")%string <> "N/A"%string.
Proof.
  intros H. apply (f_equal list_ascii_of_string) in H.
  rewrite chars_app in H.
  assert (I : In "m"%char (list_ascii_of_string "N/A"))
    by (rewrite <- H; apply in_or_app; right; simpl; auto).
  simpl in I. repeat (destruct I as [I|I]; [discriminate I|]). exact I.
Qed.

Lemma ms_text_NA (value : option Q) :
  ms_text value = Some "N/A"%string <->
  value = None \/ exists v, value = Some v /\ v == 0.
Proof.
  destruct value as [v|]; cbn [ms_text]; [|split; auto].
  destruct (Qeq_bool v 0) eqn:Z; cbn [negb].
  - apply Qeq_bool_iff in Z. split; [|reflexivity].
    intros _. right. exists v. auto.
  - split.
    + destruct (toFixed 0 v); [|discriminate].
      intros [= H]. exfalso. exact (ms_suffix_not_NA _ H).
    + intros [H|[x [[= <-] H]]]; [discriminate|].
      apply Qeq_bool_iff in H. congruence.
Qed.

End InlineTexts.

(** X18. In the variant of the dashboard that prints the vitals inline, the
    rows LCP, FID and INP read "N/A" exactly when the value is [null] or
    zero, the row CLS exactly when it is [null].  The INP observer never
    stores a zero, so on a host that accepts event entries the INP row reads
    "N/A" exactly as long as [inp] is [null]. *)
Theorem X18_inline_texts_hide_zero :
  (forall value : option Q,
      Dashboard.ms_text value = Some "N/A"%string <->
      value = None \/ exists v, value = Some v /\ v == 0) /\
  (forall value : option Q,
      Dashboard.cls_text value = Some "N/A"%string <-> value = None) /\
  (forall (supported : string -> bool) (ds : list (Vitals.delivery Q)),
      supported "event"%string = true ->
      exists s,
        Vitals.session supported (map Vitals.Deliver ds) = Some s /\
        (Dashboard.ms_text (Vitals.inp (Vitals.vitals s)) = Some "N/A"%string
         <-> Vitals.inp (Vitals.vitals s) = None)).
Proof.
  split; [exact ms_text_NA|]. split.
  - intros [v|]; cbn [Dashboard.cls_text]; [|split; reflexivity].
    split; [|discriminate]. intros H. exfalso.
    pose proof (toFixed_has_point 2 v _ H) as I. simpl in I.
    repeat (destruct I as [I|I]; [discriminate I|]). exact I.
  - intros supported ds S.
    destruct (session_inp_view supported ds S) as [s [H V]].
    exists s. split; [exact H|].
    destruct (inp_loop_worst
                (Vitals.interactions (map Vitals.Deliver ds))
                (Vitals.set_observing Vitals.INP true Vitals.initial))
      as [_ [_ C]]; [reflexivity|reflexivity|].
    unfold Vitals.view in V; cbn [Vitals.field Vitals.acc] in V.
    injection V as V1 _ V3. rewrite <- V1, <- V3 in C.
    rewrite ms_text_NA. split; [|auto].
    intros [N|[v [E Z]]]; [exact N|].
    destruct C as [[C _]|[C1 [_ C3]]]; [exact C|].
    exfalso. rewrite C1 in E. injection E as E. rewrite E in C3.
    rewrite Z in C3. exact (Qlt_irrefl 0 C3).
Qed.

(** A host that accepts event entries only and delivers entries of duration
    zero: the row reads "N/A" and [inp] is [null]. *)
Lemma X18_witness_zero_durations :
  String.eqb "event" "event" = true /\
  exists s,
    Vitals.session (String.eqb "event")
      (map Vitals.Deliver [Vitals.InpEntries (map Vitals.mkEventEntry [0; 0])])
    = Some s /\
    Vitals.inp (Vitals.vitals s) = None.
Proof.
  split; [reflexivity|].
  destruct (proj2 (proj2 X18_inline_texts_hide_zero) (String.eqb "event")
              [Vitals.InpEntries (map Vitals.mkEventEntry [0; 0])] eq_refl)
    as [s [H T]].
  exists s. split; [exact H|]. apply T.
  injection H as <-. vm_compute. reflexivity.
Defined.
